(** * Social-bot generation service: model backend and post pipeline

    A shallow embedding of
      - [src/services/bot_posts_service.py]  (BotPostsService)
      - [src/services/bot_chats_service.py]  (BotChatsService)
      - [src/models/koalpha_loader.py]       (KoalphaLoader)
    and the properties the specification states about them. *)

From Stdlib Require Import String Ascii List Bool Arith NArith ZArith Lia.
From Equations Require Import Equations.
From Equations.Prop Require Import Logic.
Import ListNotations.

Set Implicit Arguments.
Set Warnings "-register-all".

(** ** Python text

    A Python [str] is a sequence of Unicode code points.  A code point is a
    number ([N]); ASCII literals of the source are written [str "..."]. *)

Definition char := N.
Definition text := list char.

Definition str (s : string) : text :=
  map (fun a => N_of_ascii a) (list_ascii_of_string s).

Definition text_eqb (a b : text) : bool :=
  if list_eq_dec N.eq_dec a b then true else false.

Definition chr_colon : char := 58%N.     (* ':' *)
Definition chr_lbracket : char := 91%N.  (* '[' *)
Definition chr_rbracket : char := 93%N.  (* ']' *)
Definition chr_newline : char := 10%N.   (* '\n' *)
Definition chr_space : char := 32%N.     (* ' ' *)

(** [str.isspace] for one code point, which is also the class [\s] of a
    [str] pattern in [re]: CPython answers both from the same table. *)
Definition isspace (c : char) : bool :=
  ((9 <=? c) && (c <=? 13) || (28 <=? c) && (c <=? 32)
   || (c =? 133) || (c =? 160) || (c =? 5760)
   || (8192 <=? c) && (c <=? 8202)
   || (c =? 8232) || (c =? 8233) || (c =? 8239) || (c =? 8287)
   || (c =? 12288))%N.

Fixpoint drop_while (p : char -> bool) (s : text) : text :=
  match s with
  | [] => []
  | c :: r => if p c then drop_while p r else s
  end.

Lemma drop_while_length p s : length (drop_while p s) <= length s.
Proof. induction s as [|c r IH]; simpl; [lia|]. destruct (p c); simpl; lia. Qed.

(** ** [re.sub] for a pattern that never matches the empty string

    [match_at s] is the text left behind the match of the pattern at the very
    start of [s], if it matches there.  [re.sub] scans from the left,
    replaces the match by [repl] and goes on behind it; where the pattern
    does not match, the character is kept. *)

Section ReSub.
Variable match_at : text -> option text.
Variable repl : text.
Hypothesis match_at_shorter :
  forall s r, match_at s = Some r -> length r < length s.

Equations? re_sub (s : text) : text by wf (length s) lt :=
  re_sub [] := [];
  re_sub (c :: r) with inspect (match_at (c :: r)) := {
    | exist _ (Some rest) _ := repl ++ re_sub rest;
    | exist _ None _ := c :: re_sub r }.
Proof.
  apply match_at_shorter in e. simpl in e. exact e.
Qed.

(** Does the pattern match at some position of the text? *)
Fixpoint matches_somewhere (s : text) : bool :=
  match s with
  | [] => false
  | c :: r =>
      match match_at s with
      | Some _ => true
      | None => matches_somewhere r
      end
  end.
End ReSub.

(** ** The steps of [BotPostsService.clean_response] *)

(** [text.split(':', 1)[1]] when [':' in text]: the text behind the first
    colon; [None] when the text has no colon. *)
Fixpoint after_first_colon (s : text) : option text :=
  match s with
  | [] => None
  | c :: r => if (c =? chr_colon)%N then Some r else after_first_colon r
  end.

Definition colon_rule (s : text) : text :=
  match after_first_colon s with
  | Some r => r
  | None => s
  end.

(** The pattern [\[.*?\]] at the start of a text.  Behind the opening
    bracket the lazy [.*?] takes as few characters as possible, none of them
    a line feed, so the match ends at the first closing bracket and fails
    when a line feed or the end of the text comes first. *)
Fixpoint lazy_to_rbracket (s : text) : option text :=
  match s with
  | [] => None
  | c :: r =>
      if (c =? chr_rbracket)%N then Some r
      else if (c =? chr_newline)%N then None
      else lazy_to_rbracket r
  end.

Definition match_bracketed (s : text) : option text :=
  match s with
  | [] => None
  | c :: r => if (c =? chr_lbracket)%N then lazy_to_rbracket r else None
  end.

(** The pattern [\s+] at the start of a text: greedy, at least one
    whitespace character. *)
Definition match_spaces (s : text) : option text :=
  match s with
  | [] => None
  | c :: r => if isspace c then Some (drop_while isspace r) else None
  end.

Lemma lazy_to_rbracket_shorter s r :
  lazy_to_rbracket s = Some r -> length r < length s.
Proof.
  revert r; induction s as [|c s IH]; simpl; intros r H; [discriminate|].
  destruct (c =? chr_rbracket)%N.
  - injection H as <-. lia.
  - destruct (c =? chr_newline)%N; [discriminate|].
    specialize (IH _ H). lia.
Qed.

Lemma match_bracketed_shorter s r :
  match_bracketed s = Some r -> length r < length s.
Proof.
  destruct s as [|c s]; simpl; [discriminate|].
  destruct (c =? chr_lbracket)%N; [|discriminate].
  intros H. apply lazy_to_rbracket_shorter in H. lia.
Qed.

Lemma match_spaces_shorter s r :
  match_spaces s = Some r -> length r < length s.
Proof.
  destruct s as [|c s]; simpl; [discriminate|].
  destruct (isspace c); [|discriminate].
  intros H. injection H as <-.
  pose proof (drop_while_length isspace s). lia.
Qed.

(** [re.sub(r'\[.*?\]', '', text)] *)
Definition remove_bracketed : text -> text :=
  re_sub match_bracketed [] match_bracketed_shorter.

(** [re.sub(r'\s+', ' ', text)] *)
Definition collapse_spaces : text -> text :=
  re_sub match_spaces [chr_space] match_spaces_shorter.

(** [text.strip()]: whitespace is dropped from the left end, then from the
    right end. *)
Definition lstrip (s : text) : text := drop_while isspace s.

Fixpoint rstrip (s : text) : text :=
  match s with
  | [] => []
  | c :: r =>
      match rstrip r with
      | [] => if isspace c then [] else [c]
      | r' => c :: r'
      end
  end.

Definition strip (s : text) : text := rstrip (lstrip s).

(** What a text can still contain that a pass of cleaning would change. *)
Definition has_colon (s : text) : bool := existsb (N.eqb chr_colon) s.

Definition has_bracketed (s : text) : bool :=
  matches_somewhere match_bracketed s.

Definition starts_space (s : text) : bool :=
  match s with
  | [] => false
  | c :: _ => isspace c
  end.

(** Every whitespace character is a single space with no whitespace
    behind it. *)
Fixpoint collapsed (s : text) : bool :=
  match s with
  | [] => true
  | c :: r =>
      (if isspace c then (c =? chr_space)%N && negb (starts_space r)
       else true) && collapsed r
  end.

Definition has_rbracket (s : text) : bool := existsb (N.eqb chr_rbracket) s.

Definition has_newline (s : text) : bool := existsb (N.eqb chr_newline) s.

(** No opening bracket has a closing bracket anywhere behind it. *)
Fixpoint no_pair (s : text) : bool :=
  match s with
  | [] => true
  | c :: r =>
      (if (c =? chr_lbracket)%N then negb (has_rbracket r) else true)
      && no_pair r
  end.

(** [thins s u]: [u] is [s] with some characters deleted and some whitespace
    characters turned into a space, which is all a step of cleaning does. *)
Inductive thins : text -> text -> Prop :=
| thins_nil : thins [] []
| thins_keep c s u : thins s u -> thins (c :: s) (c :: u)
| thins_delete c s u : thins s u -> thins (c :: s) u
| thins_space c s u :
    isspace c = true -> thins s u -> thins (c :: s) (chr_space :: u).

(** ** Python exceptions and the outcome of a call

    An exception object is known by its class, the classes it derives from
    (what an [except] clause matches against) and the text [str(e)].  The
    implicit chaining of an exception raised inside an [except] clause to
    the one being handled ([__context__]) is not part of the record. *)

Record exn := {
  exn_class : string;
  exn_bases : list string;
  exn_str : text }.

Definition isinstance (e : exn) (cls : string) : bool :=
  String.eqb cls (exn_class e) || existsb (String.eqb cls) (exn_bases e).

Inductive outcome (A : Type) : Type :=
| Return (a : A)
| Raise (e : exn).
Arguments Return {A} a.
Arguments Raise {A} e.

(** Errors the interpreter itself raises, all below [Exception]. *)
Definition interpreter_error (cls : string) (bases : list string) (msg : string)
  : exn :=
  {| exn_class := cls;
     exn_bases := bases ++ ["Exception"; "BaseException"]%string;
     exn_str := str msg |}.

Definition TypeError (msg : string) : exn := interpreter_error "TypeError" [] msg.
Definition IndexError (msg : string) : exn :=
  interpreter_error "IndexError" ["LookupError"%string] msg.
Definition KeyError (key_repr : string) : exn :=
  interpreter_error "KeyError" ["LookupError"%string] key_repr.
Definition AttributeError (msg : string) : exn :=
  interpreter_error "AttributeError" [] msg.

(** A chat message, [{"role": ..., "content": ...}]. *)
Record Message := { role : text; msg_content : text }.

(** Sequencing of calls that may raise. *)
Definition obind {A B} (o : outcome A) (k : A -> outcome B) : outcome B :=
  match o with
  | Return a => k a
  | Raise e => Raise e
  end.

Declare Scope outcome_scope.
Delimit Scope outcome_scope with outcome.
Notation "x <- o ;; k" := (obind o (fun x => k))
  (at level 61, o at next level, right associativity) : outcome_scope.

(** ** [KoalphaLoader] ([src/models/koalpha_loader.py]) *)

Module KoalphaLoader.

(** Python values as [json] decoding and the result dictionaries have them. *)
Inductive pyval :=
| PNone
| PBool (b : bool)
| PInt (z : Z)
| PFloat (literal : text)
| PStr (s : text)
| PList (l : list pyval)
| PDict (items : list (text * pyval)).

(** A dict holds each key once; [dict_lookup] finds its binding. *)
Fixpoint dict_lookup (items : list (text * pyval)) (k : text) : option pyval :=
  match items with
  | [] => None
  | (k', v) :: r => if text_eqb k' k then Some v else dict_lookup r k
  end.

Definition not_subscriptable (ty : string) : exn :=
  TypeError ("'" ++ ty ++ "' object is not subscriptable").

(** [v[key]] for a [str] key. *)
Definition subscript_key (v : pyval) (key : string) : outcome pyval :=
  match v with
  | PDict items =>
      match dict_lookup items (str key) with
      | Some x => Return x
      | None => Raise (KeyError ("'" ++ key ++ "'"))
      end
  | PList _ => Raise (TypeError "list indices must be integers or slices, not str")
  | PStr _ => Raise (TypeError "string indices must be integers, not 'str'")
  | PNone => Raise (not_subscriptable "NoneType")
  | PBool _ => Raise (not_subscriptable "bool")
  | PInt _ => Raise (not_subscriptable "int")
  | PFloat _ => Raise (not_subscriptable "float")
  end.

(** [v[0]].  The keys of a decoded JSON object are strings, so [0] is never
    one of them. *)
Definition subscript_0 (v : pyval) : outcome pyval :=
  match v with
  | PList (x :: _) => Return x
  | PList [] => Raise (IndexError "list index out of range")
  | PStr (c :: _) => Return (PStr [c])
  | PStr [] => Raise (IndexError "string index out of range")
  | PDict _ => Raise (KeyError "0")
  | PNone => Raise (not_subscriptable "NoneType")
  | PBool _ => Raise (not_subscriptable "bool")
  | PInt _ => Raise (not_subscriptable "int")
  | PFloat _ => Raise (not_subscriptable "float")
  end.

(** What [requests.post] returns: the attributes [get_response] reads.
    [resp_json] is the call [response.json()], which raises a [ValueError]
    on a body that is not JSON. *)
Record http_response := {
  resp_status_code : Z;
  resp_url : text;
  resp_headers : list (text * text);
  resp_text : text;
  resp_json : outcome pyval }.

(** The dictionary [get_response] returns; an absent key is [None]. *)
Record InferenceResult := {
  status_code : Z;
  url : text;
  headers : option (list (text * text));
  content : option pyval;
  error : option pyval }.

(** What the loader calls outside itself.  Importing [transformers] and
    loading the tokenizer are one step, [AutoTokenizer_from_pretrained];
    [model_vllm_generate] gives, per request output, the texts of its
    completions. *)
Record world := {
  getenv_MODEL_NGROK_URL : option text;
  requests_post : text -> pyval -> outcome http_response;
  AutoTokenizer_from_pretrained : text -> outcome unit;
  apply_chat_template : list Message -> outcome text;
  model_vllm_generate : text -> outcome (list (list text)) }.

Definition model_path : text := str "allganize/Llama-3-Alpha-Ko-8B-Instruct".

Definition message_dict (m : Message) : pyval :=
  PDict [(str "role", PStr (role m)); (str "content", PStr (msg_content m))].

(** [self.data] once [self.data["messages"] = messages] is done. *)
Definition data (messages : list Message) : pyval :=
  PDict [(str "model", PStr model_path);
         (str "messages", PList (map message_dict messages));
         (str "temperature", PFloat (str "0.7"));
         (str "max_tokens", PInt 256)].

(** [f"{base_url}/v1/chat/completions"]; an unset variable formats as
    [None]. *)
Definition completions_url (base_url : option text) : text :=
  match base_url with
  | Some u => u
  | None => str "None"
  end ++ str "/v1/chat/completions".

(** [outputs[0].outputs[0].text] *)
Definition first_text (outputs : list (list text)) : outcome text :=
  match outputs with
  | [] => Raise (IndexError "list index out of range")
  | o :: _ =>
      match o with
      | [] => Raise (IndexError "list index out of range")
      | t :: _ => Return t
      end
  end.

Local Open Scope outcome_scope.

Definition get_response_colab (w : world) (messages : list Message)
  : outcome (option InferenceResult) :=
  let url := completions_url (getenv_MODEL_NGROK_URL w) in
  response <- requests_post w url (data messages) ;;
  if negb (resp_status_code response =? 200)%Z then
    error_body <-
      match resp_json response with
      | Return body => Return body
      | Raise e =>
          if isinstance e "ValueError" then Return (PStr (resp_text response))
          else Raise e
      end ;;
    Return (Some {| status_code := resp_status_code response;
                    url := resp_url response;
                    headers := Some (resp_headers response);
                    content := None;
                    error := Some error_body |})
  else
    body <- resp_json response ;;
    choices <- subscript_key body "choices" ;;
    choice <- subscript_0 choices ;;
    msg <- subscript_key choice "message" ;;
    c <- subscript_key msg "content" ;;
    Return (Some {| status_code := resp_status_code response;
                    url := resp_url response;
                    headers := None;
                    content := Some c;
                    error := None |}).

Definition get_response_gcp (w : world) (messages : list Message)
  : outcome (option InferenceResult) :=
  _ <- AutoTokenizer_from_pretrained w model_path ;;
  text_prompt <- apply_chat_template w messages ;;
  match (outputs <- model_vllm_generate w text_prompt ;; first_text outputs) with
  | Raise e =>
      if isinstance e "Exception" then
        Return (Some {| status_code := 500;
                        url := str "local_vllm";
                        headers := None;
                        content := None;
                        error := Some (PStr (exn_str e)) |})
      else Raise e
  | Return c =>
      Return (Some {| status_code := 200;
                      url := str "local_vllm";
                      headers := None;
                      content := Some (PStr c);
                      error := None |})
  end.

(** [get_response(self, messages)], [mode] being [self.mode].  With a mode
    that is neither of the two, the function body ends without a [return]. *)
Definition get_response (w : world) (mode : text) (messages : list Message)
  : outcome (option InferenceResult) :=
  if text_eqb mode (str "colab") then get_response_colab w messages
  else if text_eqb mode (str "gcp") then get_response_gcp w messages
  else Return None.

End KoalphaLoader.

(** ** [BotPostsService] ([src/services/bot_posts_service.py]) *)

Module BotPostsService.

(** [clean_response(self, text)] *)
Definition clean_response (s : text) : text :=
  strip (collapse_spaces (remove_bracketed (colon_rule s))).

Section Service.

(** Values the service only passes on, of types declared outside [src/]:
    a prior post, the board discriminator, the bot's user descriptor, the
    prompt reference and an attribute of the loader. *)
Variables Post Board BotUser Prompt Param : Type.

Record BotPostsRequest := { board_type : Board; posts : list Post }.

Record BotPostResponseData := {
  data_board_type : Board;
  user : BotUser;
  content : text }.

Record BotPostsResponse := { message : text; data : BotPostResponseData }.

(** Modelled from the spec: the InferenceResult that
    [ModelLoader.get_response] ([models/model_loader.py], not under [src/])
    hands to the service, a dictionary with a status code, the serving
    backend and either a content text or an error text. *)
Record InferenceResult := {
  status_code : Z;
  source : text;
  result_content : option text;
  result_error : option text }.

(** [self.model.loader]: an object of a class declared outside [src/],
    taken to carry the attributes the service reads. *)
Record model_parameters := {
  temperature : Param;
  top_p : Param;
  max_tokens : Param;
  stop : Param }.

Record loader_attributes := {
  parameters : model_parameters;
  model_path : Param }.

(** Arguments of the calls to the observability sink.  Wall-clock readings
    and the durations computed from them are left out. *)
Record trace_args := {
  trace_name : text;
  meta_board_type : Board;
  meta_post_count : nat;
  trace_input : list Post;
  environment : text }.

Inductive update_metadata :=
| MetaErrorType (error_type : string)
| MetaFailure (error_type : string) (messages : option (list Message))
    (original_content cleaned_content : option text).

Record update_args := {
  upd_status : option text;
  upd_error : option text;
  upd_metadata : option update_metadata;
  upd_output : option text }.

Record inference_record := {
  rec_name : text;
  rec_prompt : Prompt;
  rec_messages : list Message;
  rec_content : text;
  rec_model_name : Param;
  rec_model_parameters : model_parameters }.

(** The calls the service makes outside itself, in the order made.
    Printing to standard output and reading the clock are not recorded. *)
Inductive event :=
| Call_langfuse_trace (a : trace_args)
| Call_trace_update (a : update_args)
| Call_BotPostsPrompt
| Call_get_bot_user_info
| Call_json_to_messages (ps : list Post) (mode : text)
| Call_get_response (messages : list Message) (prompt : Prompt) (name : text)
| Call_log_inference_to_langfuse (r : inference_record)
| Call_logger_error (msg : text).

(** What those calls answer.  [invalid_query_str] and [internal_error_str]
    are the fixed texts of the two error classes of [utils/error_handler.py]. *)
Record collaborators := {
  mode : text;
  loader : loader_attributes;
  invalid_query_str : text;
  internal_error_str : text;
  langfuse_trace : trace_args -> outcome unit;
  trace_update : update_args -> outcome unit;
  BotPostsPrompt_init : outcome unit;
  get_bot_user_info : outcome BotUser;
  json_to_messages : list Post -> text -> outcome (Prompt * list Message);
  model_get_response :
    list Message -> Prompt -> text -> outcome (option InferenceResult);
  log_inference_to_langfuse : inference_record -> outcome unit }.

(** The calls made so far and the local variables the error handler looks
    up with [in locals()]; they keep their values when an exception
    unwinds the [try] block. *)
Record frame := {
  calls : list event;
  local_messages : option (list Message);
  local_original_content : option text;
  local_content : option text }.

Definition empty_frame : frame :=
  {| calls := []; local_messages := None;
     local_original_content := None; local_content := None |}.

Definition M (A : Type) : Type := frame -> frame * outcome A.

Definition ret {A} (a : A) : M A := fun f => (f, Return a).

Definition bind {A B} (m : M A) (k : A -> M B) : M B :=
  fun f =>
    match m f with
    | (f', Return a) => k a f'
    | (f', Raise e) => (f', Raise e)
    end.

Definition raise {A} (e : exn) : M A := fun f => (f, Raise e).

(** [try: body  except ... as e: handler e]; the handler decides which
    classes it takes and re-raises the others. *)
Definition try_except {A} (body : M A) (handler : exn -> M A) : M A :=
  fun f =>
    match body f with
    | (f', Return a) => (f', Return a)
    | (f', Raise e) => handler e f'
    end.

Definition call {A} (ev : event) (answer : outcome A) : M A :=
  fun f =>
    ({| calls := calls f ++ [ev];
        local_messages := local_messages f;
        local_original_content := local_original_content f;
        local_content := local_content f |}, answer).

Definition locals : M frame := fun f => (f, Return f).

Definition assign_messages (v : list Message) : M unit :=
  fun f =>
    ({| calls := calls f; local_messages := Some v;
        local_original_content := local_original_content f;
        local_content := local_content f |}, Return tt).

Definition assign_original_content (v : text) : M unit :=
  fun f =>
    ({| calls := calls f; local_messages := local_messages f;
        local_original_content := Some v;
        local_content := local_content f |}, Return tt).

Definition assign_content (v : text) : M unit :=
  fun f =>
    ({| calls := calls f; local_messages := local_messages f;
        local_original_content := local_original_content f;
        local_content := Some v |}, Return tt).

Declare Scope service_scope.
Notation "x <- m ;; k" := (bind m (fun x => k))
  (at level 61, m at next level, right associativity) : service_scope.
Notation "m ;; k" := (bind m (fun _ => k))
  (at level 61, right associativity) : service_scope.
Local Open Scope service_scope.

Variable self : collaborators.

Definition InvalidQueryParameterError : exn :=
  {| exn_class := "InvalidQueryParameterError";
     exn_bases := ["Exception"; "BaseException"]%string;
     exn_str := invalid_query_str self |}.

Definition InternalServerError : exn :=
  {| exn_class := "InternalServerError";
     exn_bases := ["Exception"; "BaseException"]%string;
     exn_str := internal_error_str self |}.

Definition open_args (request : BotPostsRequest) : trace_args :=
  {| trace_name := str "bot_posts_service";
     meta_board_type := board_type request;
     meta_post_count := length (posts request);
     trace_input := posts request;
     environment := mode self |}.

Definition invalid_posts_update : update_args :=
  {| upd_status := Some (str "error");
     upd_error := Some (str "Invalid number of posts");
     upd_metadata := Some (MetaErrorType "InvalidQueryParameterError");
     upd_output := None |}.

Definition failure_update (e : exn) (f : frame) : update_args :=
  {| upd_status := Some (str "error");
     upd_error := Some (exn_str e);
     upd_metadata :=
       Some (MetaFailure (exn_class e) (local_messages f)
               (local_original_content f) (local_content f));
     upd_output := None |}.

Definition output_update (c : text) : update_args :=
  {| upd_status := None; upd_error := None; upd_metadata := None;
     upd_output := Some c |}.

Definition inference_log (name : text) (prompt : Prompt)
  (messages : list Message) (c : text) : inference_record :=
  {| rec_name := name; rec_prompt := prompt; rec_messages := messages;
     rec_content := c; rec_model_name := model_path (loader self);
     rec_model_parameters := parameters (loader self) |}.

(** The message of the response: the source's Korean literal, by code
    point. *)
Definition response_message : text :=
  [49548; 49500; 48391; 51060; 32; 44172; 49884; 47932; 51012; 32; 51089;
   49457; 54664; 49845; 45768; 45796; 46]%N.

(** Lines 63 to 69: the count check. *)
Definition check_post_count (request : BotPostsRequest) : M unit :=
  if length (posts request) <? 5 then
    call (Call_trace_update invalid_posts_update)
         (trace_update self invalid_posts_update) ;;
    raise InvalidQueryParameterError
  else ret tt.

(** [model_response.get("content", "")] *)
Definition get_content (model_response : option InferenceResult) : M text :=
  match model_response with
  | None =>
      raise (AttributeError "'NoneType' object has no attribute 'get'")
  | Some d =>
      ret match result_content d with
          | Some c => c
          | None => []
          end
  end.

(** Lines 62 to 147: the body of the [try]. *)
Definition guarded (request : BotPostsRequest) : M BotPostsResponse :=
  check_post_count request ;;
  call Call_BotPostsPrompt (BotPostsPrompt_init self) ;;
  bot_user <- call Call_get_bot_user_info (get_bot_user_info self) ;;
  pm <- call (Call_json_to_messages (posts request) (mode self))
             (json_to_messages self (posts request) (mode self)) ;;
  let prompt_client := fst pm in
  let messages := snd pm in
  assign_messages messages ;;
  model_response <-
    call (Call_get_response messages prompt_client (str "generate_bot_post"))
         (model_get_response self messages prompt_client
            (str "generate_bot_post")) ;;
  original_content <- get_content model_response ;;
  assign_original_content original_content ;;
  (let r := inference_log (str "generate_bot_post_original") prompt_client
              messages original_content in
   call (Call_log_inference_to_langfuse r) (log_inference_to_langfuse self r)) ;;
  let cleaned := clean_response original_content in
  assign_content cleaned ;;
  (let r := inference_log (str "generate_bot_post_cleaned") prompt_client
              messages cleaned in
   call (Call_log_inference_to_langfuse r) (log_inference_to_langfuse self r)) ;;
  call (Call_trace_update (output_update cleaned))
       (trace_update self (output_update cleaned)) ;;
  ret {| message := response_message;
         data := {| data_board_type := board_type request;
                    user := bot_user;
                    content := cleaned |} |}.

(** Lines 149 to 166: the two [except] clauses.  Writing to the logger
    does not raise. *)
Definition handler (e : exn) : M BotPostsResponse :=
  if isinstance e "InvalidQueryParameterError" then raise e
  else if isinstance e "Exception" then
    call (Call_logger_error (str "Error generating bot post: " ++ exn_str e))
         (Return tt) ;;
    f <- locals ;;
    call (Call_trace_update (failure_update e f))
         (trace_update self (failure_update e f)) ;;
    raise InternalServerError
  else raise e.

(** [generate_bot_post(self, request)] *)
Definition generate_bot_post (request : BotPostsRequest) : M BotPostsResponse :=
  call (Call_langfuse_trace (open_args request))
       (langfuse_trace self (open_args request)) ;;
  try_except (guarded request) handler.

(** One request: the calls made and how the function ends. *)
Definition run {A} (m : M A) : list event * outcome A :=
  let (f, o) := m empty_frame in (calls f, o).

(** The frame in which the [try] block starts: the trace has been opened. *)
Definition opened (request : BotPostsRequest) : frame :=
  {| calls := [Call_langfuse_trace (open_args request)];
     local_messages := None;
     local_original_content := None;
     local_content := None |}.

(** A computation only adds to the record of calls. *)
Definition extends {A} (m : M A) : Prop :=
  forall f, exists rest, calls (fst (m f)) = calls f ++ rest.

End Service.

Arguments Call_langfuse_trace {Post Board Prompt Param} a.
Arguments Call_trace_update {Post Board Prompt Param} a.
Arguments Call_BotPostsPrompt {Post Board Prompt Param}.
Arguments Call_get_bot_user_info {Post Board Prompt Param}.
Arguments Call_json_to_messages {Post Board Prompt Param} ps mode.
Arguments Call_get_response {Post Board Prompt Param} messages prompt name.
Arguments Call_log_inference_to_langfuse {Post Board Prompt Param} r.
Arguments Call_logger_error {Post Board Prompt Param} msg.
Arguments empty_frame {Post Board Prompt Param}.

End BotPostsService.

(** ** [BotChatsService] ([src/services/bot_chats_service.py]) *)

Module BotChatsService.

Record chat_data := { content : text }.

Record chat_result := { status : text; message : text; data : chat_data }.

(** The content of the placeholder: the source's Korean literal, by code
    point. *)
Definition placeholder_content : text :=
  [51076; 49884; 32; 49548; 49500; 48391; 32; 52292; 54021; 32; 47700;
   49884; 51648; 51077; 45768; 45796; 46]%N.

Definition placeholder : chat_result :=
  {| status := str "success";
     message := str "Bot chat message generated successfully";
     data := {| content := placeholder_content |} |}.

(** [generate_bot_chat(self, request)]: the [try] block returns the
    dictionary literal; its [except Exception] clause logs and re-raises. *)
Definition generate_bot_chat (BotChatsRequest : Type)
  (request : BotChatsRequest) : outcome chat_result :=
  match Return placeholder with
  | Return r => Return r
  | Raise e => Raise e
  end.

End BotChatsService.

(** ** Sample surroundings

    Concrete worlds, collaborators and requests on which the models are
    run. *)

Module Samples.
Import KoalphaLoader.

Definition not_json : exn :=
  {| exn_class := "JSONDecodeError";
     exn_bases := ["ValueError"; "Exception"; "BaseException"]%string;
     exn_str := str "Expecting value" |}.

Definition out_of_memory : exn :=
  {| exn_class := "RuntimeError";
     exn_bases := ["Exception"; "BaseException"]%string;
     exn_str := str "CUDA out of memory" |}.

Definition connection_refused : exn :=
  {| exn_class := "ConnectionError";
     exn_bases := ["RequestException"; "OSError"; "Exception";
                   "BaseException"]%string;
     exn_str := str "Connection refused" |}.

Definition unavailable : http_response :=
  {| resp_status_code := 503;
     resp_url := str "http://model/v1/chat/completions";
     resp_headers := [];
     resp_text := str "Service Unavailable";
     resp_json := Raise not_json |}.

Definition failing_world : world :=
  {| getenv_MODEL_NGROK_URL := Some (str "http://model");
     requests_post := fun _ _ => Return unavailable;
     AutoTokenizer_from_pretrained := fun _ => Return tt;
     apply_chat_template := fun _ => Return (str "prompt");
     model_vllm_generate := fun _ => Raise out_of_memory |}.

Definition unreachable_world : world :=
  {| getenv_MODEL_NGROK_URL := Some (str "http://model");
     requests_post := fun _ _ => Raise connection_refused;
     AutoTokenizer_from_pretrained := fun _ => Return tt;
     apply_chat_template := fun _ => Return (str "prompt");
     model_vllm_generate := fun _ => Raise out_of_memory |}.

Definition hello : list Message :=
  [{| role := str "user"; msg_content := str "hello" |}].

End Samples.

Module PostSamples.
Import BotPostsService.
Import Samples.

Definition some_loader : loader_attributes unit :=
  {| parameters := {| temperature := tt; top_p := tt; max_tokens := tt;
                      stop := tt |};
     model_path := tt |}.

(** Every collaborator answers; the model's answer has content [reply]. *)
Definition answering (reply : option text)
  : collaborators unit unit unit unit unit :=
  {| mode := str "colab";
     loader := some_loader;
     invalid_query_str := str "Invalid query parameter";
     internal_error_str := str "Internal server error";
     langfuse_trace := fun _ => Return tt;
     trace_update := fun _ => Return tt;
     BotPostsPrompt_init := Return tt;
     get_bot_user_info := Return tt;
     json_to_messages := fun _ _ => Return (tt, hello);
     model_get_response := fun _ _ _ =>
       Return (Some {| status_code := match reply with
                                      | Some _ => 200
                                      | None => 502
                                      end;
                       source := str "colab";
                       result_content := reply;
                       result_error := match reply with
                                       | Some _ => None
                                       | None => Some (str "Bad Gateway")
                                       end |});
     log_inference_to_langfuse := fun _ => Return tt |}.

Definition sink_error : exn :=
  {| exn_class := "ConnectionError";
     exn_bases := ["OSError"; "Exception"; "BaseException"]%string;
     exn_str := str "sink unreachable" |}.

Definition template_error : exn :=
  {| exn_class := "ValueError";
     exn_bases := ["Exception"; "BaseException"]%string;
     exn_str := str "unknown template" |}.

(** The observability sink refuses to open a trace. *)
Definition sink_down : collaborators unit unit unit unit unit :=
  {| mode := str "colab";
     loader := some_loader;
     invalid_query_str := str "Invalid query parameter";
     internal_error_str := str "Internal server error";
     langfuse_trace := fun _ => Raise sink_error;
     trace_update := fun _ => Raise sink_error;
     BotPostsPrompt_init := Return tt;
     get_bot_user_info := Return tt;
     json_to_messages := fun _ _ => Return (tt, hello);
     model_get_response := fun _ _ _ => Return None;
     log_inference_to_langfuse := fun _ => Raise sink_error |}.

(** Prompt construction raises. *)
Definition template_fails : collaborators unit unit unit unit unit :=
  {| mode := str "colab";
     loader := some_loader;
     invalid_query_str := str "Invalid query parameter";
     internal_error_str := str "Internal server error";
     langfuse_trace := fun _ => Return tt;
     trace_update := fun _ => Return tt;
     BotPostsPrompt_init := Return tt;
     get_bot_user_info := Return tt;
     json_to_messages := fun _ _ => Raise template_error;
     model_get_response := fun _ _ _ => Return None;
     log_inference_to_langfuse := fun _ => Return tt |}.

Definition four_posts : BotPostsRequest unit unit :=
  {| board_type := tt; posts := [tt; tt; tt; tt] |}.

Definition five_posts : BotPostsRequest unit unit :=
  {| board_type := tt; posts := [tt; tt; tt; tt; tt] |}.

End PostSamples.

(** ** Further sample surroundings *)

Module MoreSamples.
Import KoalphaLoader.
Import Samples.

(** A 200 answer in the chat-completion shape, with content [c] in its
    first choice and [more] choices behind it. *)
Definition completion (c : text) (more : list pyval) : http_response :=
  {| resp_status_code := 200;
     resp_url := str "http://model/v1/chat/completions";
     resp_headers := [];
     resp_text := [];
     resp_json :=
       Return (PDict [(str "id", PStr (str "cmpl-1"));
                      (str "choices",
                       PList (PDict [(str "index", PInt 0);
                                     (str "message",
                                      PDict [(str "role", PStr (str "assistant"));
                                             (str "content", PStr c)])]
                              :: more))]) |}.

(** A world whose endpoint answers [response] and whose local engine
    answers [outputs]. *)
Definition serving (response : http_response)
  (outputs : outcome (list (list text))) : world :=
  {| getenv_MODEL_NGROK_URL := Some (str "http://model");
     requests_post := fun _ _ => Return response;
     AutoTokenizer_from_pretrained := fun _ => Return tt;
     apply_chat_template := fun _ => Return (str "prompt");
     model_vllm_generate := fun _ => outputs |}.

(** A 200 answer with an empty list of choices. *)
Definition no_choices : http_response :=
  {| resp_status_code := 200; resp_url := [];
     resp_headers := []; resp_text := [];
     resp_json := Return (PDict [(str "choices", PList [])]) |}.

Definition keyboard_interrupt : exn :=
  {| exn_class := "KeyboardInterrupt";
     exn_bases := ["BaseException"]%string;
     exn_str := [] |}.

End MoreSamples.

Module MorePostSamples.
Import BotPostsService.
Import Samples.
Import PostSamples.

(** Every collaborator answers, but the model wrapper returns [None]. *)
Definition model_silent : collaborators unit unit unit unit unit :=
  {| mode := str "local";
     loader := some_loader;
     invalid_query_str := str "Invalid query parameter";
     internal_error_str := str "Internal server error";
     langfuse_trace := fun _ => Return tt;
     trace_update := fun _ => Return tt;
     BotPostsPrompt_init := Return tt;
     get_bot_user_info := Return tt;
     json_to_messages := fun _ _ => Return (tt, hello);
     model_get_response := fun _ _ _ => Return None;
     log_inference_to_langfuse := fun _ => Return tt |}.

(** The sink refuses the final output update and accepts everything else;
    the model answers "Bot: hi". *)
Definition output_refused : collaborators unit unit unit unit unit :=
  {| mode := str "gcp";
     loader := some_loader;
     invalid_query_str := str "Invalid query parameter";
     internal_error_str := str "Internal server error";
     langfuse_trace := fun _ => Return tt;
     trace_update := fun u =>
       match upd_output u with
       | Some _ => Raise sink_error
       | None => Return tt
       end;
     BotPostsPrompt_init := Return tt;
     get_bot_user_info := Return tt;
     json_to_messages := fun _ _ => Return (tt, hello);
     model_get_response := fun _ _ _ =>
       Return (Some {| status_code := 200; source := str "local_vllm";
                       result_content := Some (str "Bot: hi");
                       result_error := None |});
     log_inference_to_langfuse := fun _ => Return tt |}.

(** The sink refuses the update that reports an invalid number of posts and
    accepts everything else. *)
Definition update_refused : collaborators unit unit unit unit unit :=
  {| mode := str "colab";
     loader := some_loader;
     invalid_query_str := str "Invalid query parameter";
     internal_error_str := str "Internal server error";
     langfuse_trace := fun _ => Return tt;
     trace_update := fun u =>
       match upd_metadata u with
       | Some (MetaErrorType _) => Raise sink_error
       | _ => Return tt
       end;
     BotPostsPrompt_init := Return tt;
     get_bot_user_info := Return tt;
     json_to_messages := fun _ _ => Return (tt, hello);
     model_get_response := fun _ _ _ => Return None;
     log_inference_to_langfuse := fun _ => Return tt |}.

End MorePostSamples.

(** ** Kinds of calls

    Classifiers for the record of calls of [BotPostsService], and the
    number of calls of a kind. *)

Module CallKinds.
Import BotPostsService.

Section Kinds.
Variables Post Board Prompt Param : Type.

Definition is_trace_open (ev : event Post Board Prompt Param) : bool :=
  match ev with
  | Call_langfuse_trace _ => true
  | _ => false
  end.

Definition is_trace_update (ev : event Post Board Prompt Param) : bool :=
  match ev with
  | Call_trace_update _ => true
  | _ => false
  end.

Definition is_model_call (ev : event Post Board Prompt Param) : bool :=
  match ev with
  | Call_get_response _ _ _ => true
  | _ => false
  end.

Definition is_inference_log (ev : event Post Board Prompt Param) : bool :=
  match ev with
  | Call_log_inference_to_langfuse _ => true
  | _ => false
  end.

(** Calls to the observability sink and the logger, as opposed to prompt
    construction and the model. *)
Definition is_sink_call (ev : event Post Board Prompt Param) : bool :=
  match ev with
  | Call_langfuse_trace _ | Call_trace_update _
  | Call_log_inference_to_langfuse _ | Call_logger_error _ => true
  | _ => false
  end.

Definition count (p : event Post Board Prompt Param -> bool)
  (log : list (event Post Board Prompt Param)) : nat :=
  length (filter p log).

(** The messages of the model call in a record of calls, if the model was
    called. *)
Fixpoint sent_messages (log : list (event Post Board Prompt Param))
  : option (list Message) :=
  match log with
  | [] => None
  | Call_get_response messages _ _ :: _ => Some messages
  | _ :: rest => sent_messages rest
  end.

(** The content of the inference record logged under [name], if there is
    one. *)
Fixpoint logged_content (name : text)
  (log : list (event Post Board Prompt Param)) : option text :=
  match log with
  | [] => None
  | Call_log_inference_to_langfuse r :: rest =>
      if text_eqb (rec_name r) name then Some (rec_content r)
      else logged_content name rest
  | _ :: rest => logged_content name rest
  end.

End Kinds.

Arguments is_trace_open {Post Board Prompt Param} ev.
Arguments is_trace_update {Post Board Prompt Param} ev.
Arguments is_model_call {Post Board Prompt Param} ev.
Arguments is_inference_log {Post Board Prompt Param} ev.
Arguments is_sink_call {Post Board Prompt Param} ev.
Arguments count {Post Board Prompt Param} p log.
Arguments sent_messages {Post Board Prompt Param} log.
Arguments logged_content {Post Board Prompt Param} name log.

End CallKinds.

(** * Properties *)

Unset Implicit Arguments.

(** ** Facts about [re_sub] *)

Section ReSubFacts.
Variable match_at : text -> option text.
Variable repl : text.
Hypothesis match_at_shorter :
  forall s r, match_at s = Some r -> length r < length s.

Local Notation "'sub'" := (re_sub match_at repl match_at_shorter).

Lemma re_sub_nil : sub [] = [].
Proof. now simp re_sub. Qed.

Lemma re_sub_match c r rest :
  match_at (c :: r) = Some rest -> sub (c :: r) = repl ++ sub rest.
Proof.
  intros H. simp re_sub.
  destruct (inspect (match_at (c :: r))) as [[rest'|] e]; simp re_sub;
    congruence.
Qed.

Lemma re_sub_keep c r :
  match_at (c :: r) = None -> sub (c :: r) = c :: sub r.
Proof.
  intros H. simp re_sub.
  destruct (inspect (match_at (c :: r))) as [[rest'|] e]; simp re_sub;
    congruence.
Qed.

(** Where the pattern matches at no position, nothing is replaced. *)
Lemma re_sub_no_match s :
  matches_somewhere match_at s = false -> sub s = s.
Proof.
  induction s as [|c r IH]; [intros _; apply re_sub_nil|].
  simpl. destruct (match_at (c :: r)) eqn:E; [discriminate|].
  intros H. rewrite (re_sub_keep _ _ E). now rewrite IH.
Qed.

(** A replacement no longer than what it replaces cannot lengthen the
    text, and shortens it where it is shorter than every match. *)
Lemma re_sub_length :
  (forall s r, match_at s = Some r -> length repl + length r <= length s) ->
  forall s, length (sub s) <= length s.
Proof.
  intros Hrepl s.
  induction s as [s IH] using (well_founded_induction
    (Wf_nat.well_founded_ltof _ (@length char))).
  destruct s as [|c r]; [now rewrite re_sub_nil|].
  destruct (match_at (c :: r)) as [rest|] eqn:E.
  - rewrite (re_sub_match _ _ _ E), length_app.
    pose proof (Hrepl _ _ E).
    assert (length (sub rest) <= length rest)
      by (apply IH; unfold ltof; now apply match_at_shorter).
    lia.
  - rewrite (re_sub_keep _ _ E). simpl.
    assert (length (sub r) <= length r)
      by (apply IH; unfold ltof; simpl; lia).
    lia.
Qed.

Lemma re_sub_shrinks :
  (forall s r, match_at s = Some r -> length repl + length r < length s) ->
  forall s, matches_somewhere match_at s = true -> length (sub s) < length s.
Proof.
  intros Hrepl s.
  assert (Hle : forall t, length (sub t) <= length t).
  { apply re_sub_length. intros t r E. specialize (Hrepl _ _ E). lia. }
  induction s as [|c r IH]; simpl; [discriminate|].
  destruct (match_at (c :: r)) as [rest|] eqn:E.
  - intros _. rewrite (re_sub_match _ _ _ E), length_app.
    pose proof (Hrepl _ _ E) as H1. pose proof (Hle rest). simpl in H1. lia.
  - intros H. rewrite (re_sub_keep _ _ E). simpl. specialize (IH H). lia.
Qed.
End ReSubFacts.

(** ** Facts about the steps of cleaning *)

Lemma after_first_colon_none s :
  after_first_colon s = None <-> has_colon s = false.
Proof.
  unfold has_colon.
  induction s as [|c r IH]; cbn [existsb after_first_colon]; [tauto|].
  rewrite (N.eqb_sym chr_colon c).
  destruct (c =? chr_colon)%N; cbn [orb]; [split; discriminate | exact IH].
Qed.

Lemma colon_rule_no_colon s : has_colon s = false -> colon_rule s = s.
Proof.
  intros H. apply after_first_colon_none in H. unfold colon_rule. now rewrite H.
Qed.

Lemma after_first_colon_app a b :
  has_colon a = false -> after_first_colon (a ++ chr_colon :: b) = Some b.
Proof.
  unfold has_colon.
  induction a as [|c a IH]; cbn [existsb after_first_colon app].
  - now rewrite N.eqb_refl.
  - rewrite (N.eqb_sym chr_colon c).
    destruct (c =? chr_colon)%N; cbn [orb]; [discriminate | exact IH].
Qed.

Lemma colon_rule_first a b :
  has_colon a = false -> colon_rule (a ++ chr_colon :: b) = b.
Proof.
  intros H. unfold colon_rule. now rewrite (after_first_colon_app a b H).
Qed.

Lemma after_first_colon_shorter s r :
  after_first_colon s = Some r -> length r < length s.
Proof.
  revert r; induction s as [|c s IH]; cbn [after_first_colon length];
    intros r H; [discriminate|].
  destruct (c =? chr_colon)%N.
  - injection H as <-. lia.
  - specialize (IH _ H). lia.
Qed.

Lemma colon_rule_length s : length (colon_rule s) <= length s.
Proof.
  unfold colon_rule. destruct (after_first_colon s) eqn:E; [|lia].
  apply after_first_colon_shorter in E. lia.
Qed.

Lemma colon_rule_shrinks s :
  has_colon s = true -> length (colon_rule s) < length s.
Proof.
  intros H. unfold colon_rule. destruct (after_first_colon s) eqn:E.
  - now apply after_first_colon_shorter.
  - apply after_first_colon_none in E. congruence.
Qed.

Lemma remove_bracketed_none s :
  has_bracketed s = false -> remove_bracketed s = s.
Proof. apply re_sub_no_match. Qed.

Lemma remove_bracketed_length s : length (remove_bracketed s) <= length s.
Proof.
  apply re_sub_length. intros t r H.
  apply match_bracketed_shorter in H. simpl. lia.
Qed.

Lemma remove_bracketed_shrinks s :
  has_bracketed s = true -> length (remove_bracketed s) < length s.
Proof.
  apply re_sub_shrinks. intros t r H.
  apply match_bracketed_shorter in H. simpl. lia.
Qed.

Lemma collapse_spaces_length s : length (collapse_spaces s) <= length s.
Proof.
  apply re_sub_length. intros t r H.
  apply match_spaces_shorter in H. simpl. lia.
Qed.

Lemma starts_space_drop_while s : starts_space (drop_while isspace s) = false.
Proof.
  induction s as [|c r IH]; simpl; [reflexivity|].
  destruct (isspace c) eqn:E; [exact IH | simpl; exact E].
Qed.

Lemma drop_while_no_space s :
  starts_space s = false -> drop_while isspace s = s.
Proof. destruct s as [|c r]; simpl; [reflexivity|]. now intros ->. Qed.

Lemma collapse_spaces_nil : collapse_spaces [] = [].
Proof. apply re_sub_nil. Qed.

Lemma collapse_spaces_space c r :
  isspace c = true ->
  collapse_spaces (c :: r) = chr_space :: collapse_spaces (drop_while isspace r).
Proof.
  intros H. unfold collapse_spaces.
  rewrite (re_sub_match _ _ _ c r (drop_while isspace r)); [reflexivity|].
  simpl. now rewrite H.
Qed.

Lemma collapse_spaces_other c r :
  isspace c = false -> collapse_spaces (c :: r) = c :: collapse_spaces r.
Proof.
  intros H. unfold collapse_spaces. apply re_sub_keep. simpl. now rewrite H.
Qed.

Lemma starts_space_collapse s :
  starts_space (collapse_spaces s) = starts_space s.
Proof.
  destruct s as [|c r]; [now rewrite collapse_spaces_nil|].
  destruct (isspace c) eqn:E.
  - rewrite (collapse_spaces_space c r E). simpl. now rewrite E.
  - rewrite (collapse_spaces_other c r E). reflexivity.
Qed.

Lemma collapse_spaces_collapsed s : collapsed (collapse_spaces s) = true.
Proof.
  induction s as [s IH] using (well_founded_induction
    (Wf_nat.well_founded_ltof _ (@length char))).
  destruct s as [|c r]; [now rewrite collapse_spaces_nil|].
  destruct (isspace c) eqn:E.
  - rewrite (collapse_spaces_space c r E).
    cbn [collapsed]. rewrite starts_space_collapse, starts_space_drop_while.
    rewrite IH; [reflexivity|].
    unfold ltof. pose proof (drop_while_length isspace r). simpl. lia.
  - rewrite (collapse_spaces_other c r E). cbn [collapsed]. rewrite E.
    apply IH. unfold ltof. simpl. lia.
Qed.

Lemma collapsed_fixed s : collapsed s = true -> collapse_spaces s = s.
Proof.
  induction s as [|c r IH]; [intros _; apply collapse_spaces_nil|].
  cbn [collapsed]. destruct (isspace c) eqn:E.
  - intros H. apply andb_prop in H as [H Hr]. apply andb_prop in H as [Hc Hs].
    apply N.eqb_eq in Hc. apply negb_true_iff in Hs.
    rewrite (collapse_spaces_space c r E), (drop_while_no_space r Hs), (IH Hr).
    now rewrite Hc.
  - intros H. simpl in H. rewrite (collapse_spaces_other c r E). now rewrite IH.
Qed.

Lemma collapsed_lstrip s : collapsed s = true -> collapsed (lstrip s) = true.
Proof.
  unfold lstrip. induction s as [|c r IH]; [reflexivity|].
  intros H. cbn [drop_while]. destruct (isspace c); [|exact H].
  apply IH. cbn [collapsed] in H. now apply andb_prop in H as [_ H].
Qed.

Lemma rstrip_head r c u : rstrip r = c :: u -> exists r', r = c :: r'.
Proof.
  destruct r as [|c0 r0]; simpl; [discriminate|].
  destruct (rstrip r0); [destruct (isspace c0)|]; intros H;
    inversion H; subst; eauto.
Qed.

Lemma collapsed_rstrip s : collapsed s = true -> collapsed (rstrip s) = true.
Proof.
  induction s as [|c r IH]; [reflexivity|].
  cbn [collapsed rstrip]. intros H. apply andb_prop in H as [Hc Hr].
  specialize (IH Hr). destruct (rstrip r) as [|c' u] eqn:E.
  - destruct (isspace c) eqn:Ec; [reflexivity|]. simpl. now rewrite Ec.
  - destruct (rstrip_head _ _ _ E) as [r' ->].
    change (collapsed (c :: c' :: u))
      with ((if isspace c then (c =? chr_space)%N && negb (isspace c')
             else true) && collapsed (c' :: u)).
    simpl in Hc. now rewrite Hc, IH.
Qed.

Lemma rstrip_idempotent s : rstrip (rstrip s) = rstrip s.
Proof.
  induction s as [|c r IH]; [reflexivity|].
  cbn [rstrip]. destruct (rstrip r) as [|c' u] eqn:E.
  - destruct (isspace c) eqn:Ec; [reflexivity|]. simpl. now rewrite Ec.
  - change (rstrip (c :: c' :: u))
      with (match rstrip (c' :: u) with
            | [] => if isspace c then [] else [c]
            | r' => c :: r'
            end).
    now rewrite IH.
Qed.

Lemma starts_space_rstrip s :
  starts_space s = false -> starts_space (rstrip s) = false.
Proof.
  intros H. destruct (rstrip s) as [|c u] eqn:E; [reflexivity|].
  destruct (rstrip_head _ _ _ E) as [r' ->]. exact H.
Qed.

Lemma rstrip_length s : length (rstrip s) <= length s.
Proof.
  induction s as [|c r IH]; simpl; [lia|].
  destruct (rstrip r); [destruct (isspace c)|]; simpl in *; lia.
Qed.

Lemma strip_length s : length (strip s) <= length s.
Proof.
  unfold strip, lstrip.
  pose proof (rstrip_length (drop_while isspace s)).
  pose proof (drop_while_length isspace s). lia.
Qed.

Lemma strip_idempotent s : strip (strip s) = strip s.
Proof.
  unfold strip, lstrip.
  rewrite (drop_while_no_space (rstrip (drop_while isspace s))).
  - apply rstrip_idempotent.
  - apply starts_space_rstrip, starts_space_drop_while.
Qed.

Lemma collapsed_strip s : collapsed s = true -> collapsed (strip s) = true.
Proof. intros H. now apply collapsed_rstrip, collapsed_lstrip. Qed.

(** ** Facts about [clean_response] *)

Import BotPostsService.

Lemma clean_response_collapsed x : collapsed (clean_response x) = true.
Proof. apply collapsed_strip, collapse_spaces_collapsed. Qed.

Lemma clean_response_stripped x : strip (clean_response x) = clean_response x.
Proof. apply strip_idempotent. Qed.

(** A text with no colon, no bracketed span, whitespace already collapsed
    and none at its ends is left as it is. *)
Lemma clean_response_fixed y :
  has_colon y = false -> has_bracketed y = false ->
  collapsed y = true -> strip y = y ->
  clean_response y = y.
Proof.
  intros Hc Hb Hw Hs. unfold clean_response.
  now rewrite (colon_rule_no_colon _ Hc), (remove_bracketed_none _ Hb),
    (collapsed_fixed _ Hw).
Qed.

Lemma clean_response_length y : length (clean_response y) <= length y.
Proof.
  unfold clean_response.
  pose proof (colon_rule_length y).
  pose proof (remove_bracketed_length (colon_rule y)).
  pose proof (collapse_spaces_length (remove_bracketed (colon_rule y))).
  pose proof (strip_length (collapse_spaces (remove_bracketed (colon_rule y)))).
  lia.
Qed.

Lemma clean_response_shrinks y :
  has_colon y = true \/ has_bracketed y = true ->
  length (clean_response y) < length y.
Proof.
  intros H. unfold clean_response.
  pose proof (colon_rule_length y).
  pose proof (remove_bracketed_length (colon_rule y)).
  pose proof (collapse_spaces_length (remove_bracketed (colon_rule y))).
  pose proof (strip_length (collapse_spaces (remove_bracketed (colon_rule y)))).
  destruct (has_colon y) eqn:Hc.
  - pose proof (colon_rule_shrinks _ Hc). lia.
  - destruct H as [H|H]; [discriminate|].
    rewrite (colon_rule_no_colon _ Hc) in *.
    pose proof (remove_bracketed_shrinks _ H). lia.
Qed.

(** *** Every step of cleaning thins the text *)

Lemma thins_refl s : thins s s.
Proof. induction s; constructor; assumption. Qed.

Lemma thins_drop_while p r u : thins (drop_while p r) u -> thins r u.
Proof.
  induction r as [|c r IH]; simpl; [auto|].
  destruct (p c); [|auto]. intros H. apply thins_delete. auto.
Qed.

Lemma thins_after_first_colon s r u :
  after_first_colon s = Some r -> thins r u -> thins s u.
Proof.
  revert r; induction s as [|c s IH]; cbn [after_first_colon]; intros r H Hu;
    [discriminate|].
  apply thins_delete. destruct (c =? chr_colon)%N.
  - now injection H as <-.
  - eauto.
Qed.

Lemma thins_lazy_to_rbracket s r u :
  lazy_to_rbracket s = Some r -> thins r u -> thins s u.
Proof.
  revert r; induction s as [|c s IH]; cbn [lazy_to_rbracket]; intros r H Hu;
    [discriminate|].
  apply thins_delete. destruct (c =? chr_rbracket)%N.
  - now injection H as <-.
  - destruct (c =? chr_newline)%N; [discriminate | eauto].
Qed.

Lemma thins_colon_rule s : thins s (colon_rule s).
Proof.
  unfold colon_rule. destruct (after_first_colon s) eqn:E.
  - apply (thins_after_first_colon _ _ _ E), thins_refl.
  - apply thins_refl.
Qed.

Lemma thins_remove_bracketed s : thins s (remove_bracketed s).
Proof.
  unfold remove_bracketed.
  induction s as [s IH] using (well_founded_induction
    (Wf_nat.well_founded_ltof _ (@length char))).
  destruct s as [|c r]; [rewrite re_sub_nil; constructor|].
  destruct (match_bracketed (c :: r)) as [rest|] eqn:E.
  - rewrite (re_sub_match _ _ _ _ _ _ E). cbn [app].
    pose proof (match_bracketed_shorter _ E) as Hlt.
    cbn [match_bracketed] in E. destruct (c =? chr_lbracket)%N; [|discriminate].
    apply thins_delete, (thins_lazy_to_rbracket _ _ _ E), IH. exact Hlt.
  - rewrite (re_sub_keep _ _ _ _ _ E). apply thins_keep, IH.
    unfold ltof. simpl. lia.
Qed.

Lemma thins_collapse_spaces s : thins s (collapse_spaces s).
Proof.
  induction s as [s IH] using (well_founded_induction
    (Wf_nat.well_founded_ltof _ (@length char))).
  destruct s as [|c r]; [rewrite collapse_spaces_nil; constructor|].
  destruct (isspace c) eqn:E.
  - rewrite (collapse_spaces_space c r E). apply thins_space; [exact E|].
    apply (thins_drop_while isspace), IH.
    unfold ltof. pose proof (drop_while_length isspace r). simpl. lia.
  - rewrite (collapse_spaces_other c r E). apply thins_keep, IH.
    unfold ltof. simpl. lia.
Qed.

Lemma thins_rstrip s : thins s (rstrip s).
Proof.
  induction s as [|c r IH]; [constructor|]. cbn [rstrip].
  destruct (rstrip r) as [|c' u].
  - destruct (isspace c); [apply thins_delete | apply thins_keep]; exact IH.
  - apply thins_keep, IH.
Qed.

Lemma thins_strip s : thins s (strip s).
Proof.
  unfold strip, lstrip. apply (thins_drop_while isspace), thins_rstrip.
Qed.

(** *** What thinning cannot bring in *)

Lemma thins_existsb (p : char -> bool) s u :
  p chr_space = false -> thins s u -> existsb p s = false ->
  existsb p u = false.
Proof.
  intros Hp H. induction H as [|c s u H IH|c s u H IH|c s u Hc H IH];
    cbn [existsb]; intros E.
  - reflexivity.
  - apply orb_false_iff in E as [E1 E2]. now rewrite E1, IH.
  - apply orb_false_iff in E as [E1 E2]. auto.
  - apply orb_false_iff in E as [E1 E2]. now rewrite Hp, IH.
Qed.

Lemma thins_no_colon s u : thins s u -> has_colon s = false -> has_colon u = false.
Proof. apply thins_existsb. reflexivity. Qed.

Lemma thins_no_rbracket s u :
  thins s u -> has_rbracket s = false -> has_rbracket u = false.
Proof. apply thins_existsb. reflexivity. Qed.

Lemma thins_no_newline s u :
  thins s u -> has_newline s = false -> has_newline u = false.
Proof. apply thins_existsb. reflexivity. Qed.

Lemma thins_no_pair s u : thins s u -> no_pair s = true -> no_pair u = true.
Proof.
  intros H. induction H as [|c s u H IH|c s u H IH|c s u Hc H IH];
    cbn [no_pair]; intros E.
  - reflexivity.
  - apply andb_prop in E as [E1 E2]. rewrite (IH E2), andb_true_r.
    destruct (c =? chr_lbracket)%N; [|reflexivity].
    apply negb_true_iff in E1. now rewrite (thins_no_rbracket _ _ H E1).
  - apply andb_prop in E as [E1 E2]. auto.
  - apply andb_prop in E as [E1 E2]. now rewrite (IH E2).
Qed.

(** *** Bracket pairs *)

Lemma lazy_to_rbracket_none s :
  has_rbracket s = false -> lazy_to_rbracket s = None.
Proof.
  unfold has_rbracket.
  induction s as [|c s IH]; cbn [existsb lazy_to_rbracket]; [reflexivity|].
  rewrite (N.eqb_sym chr_rbracket c). intros E.
  apply orb_false_iff in E as [E1 E2]. rewrite E1, (IH E2).
  now destruct (c =? chr_newline)%N.
Qed.

Lemma lazy_to_rbracket_gives_up s :
  lazy_to_rbracket s = None -> has_newline s = false ->
  has_rbracket s = false.
Proof.
  unfold has_rbracket, has_newline.
  induction s as [|c s IH]; cbn [existsb lazy_to_rbracket]; [reflexivity|].
  rewrite (N.eqb_sym chr_rbracket c), (N.eqb_sym chr_newline c).
  destruct (c =? chr_rbracket)%N; [discriminate|].
  destruct (c =? chr_newline)%N; [discriminate|]. exact IH.
Qed.

Lemma no_pair_no_bracketed s : no_pair s = true -> has_bracketed s = false.
Proof.
  unfold has_bracketed.
  induction s as [|c r IH]; [reflexivity|].
  cbn [no_pair matches_somewhere match_bracketed]. intros E.
  apply andb_prop in E as [E1 E2].
  destruct (c =? chr_lbracket)%N; [|exact (IH E2)].
  apply negb_true_iff in E1. rewrite (lazy_to_rbracket_none _ E1). exact (IH E2).
Qed.

(** Where the text has no line feed, removing the bracketed spans leaves no
    opening bracket with a closing one behind it. *)
Lemma no_pair_remove_bracketed s :
  has_newline s = false -> no_pair (remove_bracketed s) = true.
Proof.
  induction s as [s IH] using (well_founded_induction
    (Wf_nat.well_founded_ltof _ (@length char))).
  intros Hn. destruct s as [|c r].
  - unfold remove_bracketed. now rewrite re_sub_nil.
  - assert (Hr : has_newline r = false).
    { unfold has_newline in *. cbn [existsb] in Hn.
      now apply orb_false_iff in Hn as [_ Hn]. }
    destruct (match_bracketed (c :: r)) as [rest|] eqn:E.
    + unfold remove_bracketed. rewrite (re_sub_match _ _ _ _ _ _ E).
      cbn [app]. fold (remove_bracketed rest). apply IH.
      * exact (match_bracketed_shorter _ E).
      * cbn [match_bracketed] in E.
        destruct (c =? chr_lbracket)%N; [|discriminate].
        apply (thins_no_newline r); [|exact Hr].
        apply (thins_lazy_to_rbracket _ _ _ E), thins_refl.
    + unfold remove_bracketed. rewrite (re_sub_keep _ _ _ _ _ E).
      fold (remove_bracketed r). cbn [no_pair].
      rewrite (IH r); [|unfold ltof; simpl; lia|exact Hr].
      rewrite andb_true_r. cbn [match_bracketed] in E.
      destruct (c =? chr_lbracket)%N; [|reflexivity].
      apply negb_true_iff, (thins_no_rbracket r).
      * apply thins_remove_bracketed.
      * now apply lazy_to_rbracket_gives_up.
Qed.

(** X5: For a text with at most one colon and no line feed, one pass of cleaning
    leaves nothing for a second pass. *)
Lemma clean_response_idempotent_one_colon x :
  has_colon (colon_rule x) = false -> has_newline x = false ->
  clean_response (clean_response x) = clean_response x.
Proof.
  intros Hc Hn.
  pose proof (thins_colon_rule x) as T0.
  pose proof (thins_remove_bracketed (colon_rule x)) as T1.
  pose proof (thins_collapse_spaces (remove_bracketed (colon_rule x))) as T2.
  pose proof (thins_strip
                (collapse_spaces (remove_bracketed (colon_rule x)))) as T3.
  apply clean_response_fixed.
  - unfold clean_response.
    apply (thins_no_colon _ _ T3), (thins_no_colon _ _ T2),
      (thins_no_colon _ _ T1), Hc.
  - apply no_pair_no_bracketed. unfold clean_response.
    apply (thins_no_pair _ _ T3), (thins_no_pair _ _ T2).
    apply no_pair_remove_bracketed, (thins_no_newline _ _ T0), Hn.
  - apply clean_response_collapsed.
  - apply clean_response_stripped.
Qed.

Example clean_bracket_strip :
  clean_response (str "hello [stage direction] world") = str "hello world".
Proof. reflexivity. Qed.

Example clean_whitespace_collapse :
  clean_response [97; 32; 32; 32; 32; 98; 10; 10; 99]%N = str "a b c".
Proof. reflexivity. Qed.

Example clean_empty : clean_response [] = [].
Proof. reflexivity. Qed.

(** A bracket pair with a line feed between is kept by the first pass, which
    turns the line feed into a space; the second pass then removes it. *)
Example clean_bracket_line_feed :
  clean_response [91; 10; 93]%N = str "[ ]" /\
  clean_response (clean_response [91; 10; 93]%N) = [].
Proof. split; reflexivity. Qed.

(** C1, as stated, fails: one pass over "a: b: c" consumes the first colon
    only and leaves "b: c", which still has a colon; a second pass gives
    "c". *)
Lemma clean_response_twice_differs :
  clean_response (str "a: b: c") = str "b: c" /\
  clean_response (clean_response (str "a: b: c")) = str "c" /\
  clean_response (clean_response (str "a: b: c")) <> clean_response (str "a: b: c").
Proof. repeat split; try reflexivity. vm_compute. discriminate. Qed.

(** C1, amended: a second pass of cleaning changes nothing exactly when the
    first pass left no colon and no bracketed span in the text. *)
Theorem clean_response_idempotent_iff (x : text) :
  clean_response (clean_response x) = clean_response x <->
  has_colon (clean_response x) = false /\
  has_bracketed (clean_response x) = false.
Proof.
  split.
  - intros H.
    destruct (has_colon (clean_response x)) eqn:Hc.
    + pose proof (clean_response_shrinks (clean_response x) (or_introl Hc)).
      rewrite H in *. lia.
    + split; [reflexivity|].
      destruct (has_bracketed (clean_response x)) eqn:Hb; [|reflexivity].
      pose proof (clean_response_shrinks (clean_response x) (or_intror Hb)).
      rewrite H in *. lia.
  - intros [Hc Hb]. apply clean_response_fixed; try assumption.
    + apply clean_response_collapsed.
    + apply clean_response_stripped.
Qed.

(** C7: the colon rule drops the text up to and including the first colon
    and nothing behind it, and does nothing to a text without a colon;
    cleaning leaves an already clean text (no colon, no bracketed span,
    whitespace collapsed and stripped) as it is. *)
Theorem colon_rule_first_colon_only (a b s y : text) :
  has_colon a = false ->
  has_colon s = false ->
  has_colon y = false -> has_bracketed y = false ->
  collapsed y = true -> strip y = y ->
  colon_rule (a ++ chr_colon :: b) = b /\
  colon_rule s = s /\
  clean_response y = y /\
  clean_response (str "Role: hello world") = str "hello world" /\
  clean_response (str "a: b: c") = str "b: c" /\
  clean_response (str "already clean") = str "already clean".
Proof.
  intros Ha Hs Hy1 Hy2 Hy3 Hy4.
  split; [now apply colon_rule_first|].
  split; [now apply colon_rule_no_colon|].
  split; [now apply clean_response_fixed|].
  repeat split; reflexivity.
Qed.

Lemma clean_response_idempotent_iff_witness :
  clean_response (clean_response (str "Role: hello [aside] world")) =
  clean_response (str "Role: hello [aside] world").
Proof.
  apply (proj2 (clean_response_idempotent_iff
                  (str "Role: hello [aside] world"))).
  split; reflexivity.
Defined.

Lemma colon_rule_first_colon_only_witness :
  colon_rule (str "a" ++ chr_colon :: str " b: c") = str " b: c" /\
  colon_rule (str "no colon here") = str "no colon here" /\
  clean_response (str "already clean") = str "already clean".
Proof.
  destruct (colon_rule_first_colon_only
              (str "a") (str " b: c") (str "no colon here")
              (str "already clean"))
    as (H1 & H2 & H3 & _); try reflexivity.
  repeat split; assumption.
Defined.

(** ** Facts about [KoalphaLoader.get_response] *)

Lemma text_eqb_eq a b : text_eqb a b = true <-> a = b.
Proof.
  unfold text_eqb. destruct (list_eq_dec N.eq_dec a b); split;
    intros H; auto; discriminate.
Qed.

Lemma text_eqb_neq a b : a <> b -> text_eqb a b = false.
Proof.
  intros H. destruct (text_eqb a b) eqn:E; [|reflexivity].
  apply text_eqb_eq in E. contradiction.
Qed.

Module KoalphaFacts.
Import KoalphaLoader.
Import Samples.

(** C2, as stated, fails in remote mode: when the HTTP request itself raises
    (here a refused connection), [get_response] returns no result and the
    exception reaches the caller. *)
Lemma get_response_colab_raises :
  get_response unreachable_world (str "colab") hello = Raise connection_refused.
Proof. reflexivity. Qed.

(** A 200 answer whose body lacks the expected keys raises as well. *)
Example get_response_colab_bad_body :
  get_response
    {| getenv_MODEL_NGROK_URL := None;
       requests_post := fun _ _ =>
         Return {| resp_status_code := 200; resp_url := [];
                   resp_headers := []; resp_text := str "{}";
                   resp_json := Return (PDict []) |};
       AutoTokenizer_from_pretrained := fun _ => Return tt;
       apply_chat_template := fun _ => Return [];
       model_vllm_generate := fun _ => Return [] |}
    (str "colab") hello
  = Raise (KeyError "'choices'").
Proof. reflexivity. Qed.

(** C2, amended: in remote mode an HTTP answer with a status other than 200
    gives a result with that status code, no content and the body (decoded,
    or as raw text when it is not JSON) as error; in local mode an exception
    below [Exception] raised by the generation call gives a result with
    status code 500, url "local_vllm", no content and [str(e)] as error. *)
Theorem get_response_failure_structured (w : world) (messages : list Message) :
  (forall response,
     requests_post w (completions_url (getenv_MODEL_NGROK_URL w))
       (data messages) = Return response ->
     resp_status_code response <> 200%Z ->
     (forall x, resp_json response = Raise x ->
                isinstance x "ValueError" = true) ->
     get_response w (str "colab") messages =
       Return (Some {| status_code := resp_status_code response;
                       url := resp_url response;
                       headers := Some (resp_headers response);
                       content := None;
                       error := Some match resp_json response with
                                     | Return body => body
                                     | Raise _ => PStr (resp_text response)
                                     end |}))
  /\
  (forall text_prompt e,
     AutoTokenizer_from_pretrained w model_path = Return tt ->
     apply_chat_template w messages = Return text_prompt ->
     obind (model_vllm_generate w text_prompt) first_text = Raise e ->
     isinstance e "Exception" = true ->
     get_response w (str "gcp") messages =
       Return (Some {| status_code := 500;
                       url := str "local_vllm";
                       headers := None;
                       content := None;
                       error := Some (PStr (exn_str e)) |})).
Proof.
  split.
  - intros response Hpost Hstatus Hjson.
    unfold get_response.
    change (text_eqb (str "colab") (str "colab")) with true. cbv iota.
    unfold get_response_colab. rewrite Hpost. cbn [obind].
    apply Z.eqb_neq in Hstatus. rewrite Hstatus. cbn [negb].
    destruct (resp_json response) as [body|x] eqn:E; cbn [obind].
    + reflexivity.
    + rewrite (Hjson x eq_refl). reflexivity.
  - intros text_prompt e Htok Htpl Hgen Hexc.
    unfold get_response.
    change (text_eqb (str "gcp") (str "colab")) with false.
    change (text_eqb (str "gcp") (str "gcp")) with true. cbv iota.
    unfold get_response_gcp, obind in *. rewrite Htok, Htpl, Hgen, Hexc.
    reflexivity.
Qed.

Lemma get_response_failure_structured_witness :
  get_response failing_world (str "colab") hello =
    Return (Some {| status_code := 503;
                    url := str "http://model/v1/chat/completions";
                    headers := Some [];
                    content := None;
                    error := Some (PStr (str "Service Unavailable")) |})
  /\
  get_response failing_world (str "gcp") hello =
    Return (Some {| status_code := 500;
                    url := str "local_vllm";
                    headers := None;
                    content := None;
                    error := Some (PStr (str "CUDA out of memory")) |}).
Proof.
  destruct (get_response_failure_structured failing_world hello) as [Hr Hl].
  split.
  - apply (Hr unavailable).
    + reflexivity.
    + discriminate.
    + intros x Hx. injection Hx as <-. reflexivity.
  - apply (Hl (str "prompt") out_of_memory); reflexivity.
Defined.

(** C10: with a mode that is neither "colab" nor "gcp", [get_response]
    returns [None] whatever the messages are. *)
Theorem get_response_other_mode (w : world) (mode : text)
  (messages : list Message) :
  mode <> str "colab" -> mode <> str "gcp" ->
  get_response w mode messages = Return None.
Proof.
  intros H1 H2. unfold get_response.
  now rewrite (text_eqb_neq _ _ H1), (text_eqb_neq _ _ H2).
Qed.

Lemma get_response_other_mode_witness :
  get_response failing_world (str "local") hello = Return None.
Proof.
  apply get_response_other_mode; discriminate.
Defined.

End KoalphaFacts.

(** ** Facts about [BotPostsService.generate_bot_post] *)

Module PostsFacts.
Import BotPostsService.
Import CallKinds.
Import Samples.
Import PostSamples.
Import MorePostSamples.

Section Pipeline.
Variables Post Board BotUser Prompt Param : Type.
Variable self : collaborators Post Board BotUser Prompt Param.
Variable request : BotPostsRequest Post Board.

Local Notation "'opened'" := (BotPostsService.opened self request).
Local Notation "'extends'" :=
  (@BotPostsService.extends Post Board Prompt Param _).

(** *** The record of calls only grows *)

Lemma extends_ret {A} (a : A) : extends (ret a).
Proof. intros f. exists []. simpl. now rewrite app_nil_r. Qed.

Lemma extends_raise {A} (e : exn) : extends (@raise _ _ _ _ A e).
Proof. intros f. exists []. simpl. now rewrite app_nil_r. Qed.

Lemma extends_call {A} ev (o : outcome A) : extends (call ev o).
Proof. intros f. exists [ev]. reflexivity. Qed.

Lemma extends_locals : extends (@locals Post Board Prompt Param).
Proof. intros f. exists []. simpl. now rewrite app_nil_r. Qed.

Lemma extends_assign_messages v :
  extends (@assign_messages Post Board Prompt Param v).
Proof. intros f. exists []. simpl. now rewrite app_nil_r. Qed.

Lemma extends_assign_original_content v :
  extends (@assign_original_content Post Board Prompt Param v).
Proof. intros f. exists []. simpl. now rewrite app_nil_r. Qed.

Lemma extends_assign_content v :
  extends (@assign_content Post Board Prompt Param v).
Proof. intros f. exists []. simpl. now rewrite app_nil_r. Qed.

Lemma extends_bind {A B} (m : M _ _ _ _ A) (k : A -> M _ _ _ _ B) :
  extends m -> (forall a, extends (k a)) -> extends (bind m k).
Proof.
  intros Hm Hk f. unfold bind. destruct (Hm f) as [r1 H1].
  destruct (m f) as [f' [a|e]]; simpl in H1.
  - destruct (Hk a f') as [r2 H2]. exists (r1 ++ r2).
    now rewrite H2, H1, app_assoc.
  - exists r1. exact H1.
Qed.

Lemma extends_try_except {A} (body : M _ _ _ _ A) handler :
  extends body -> (forall e, extends (handler e)) ->
  extends (try_except body handler).
Proof.
  intros Hb Hh f. unfold try_except. destruct (Hb f) as [r1 H1].
  destruct (body f) as [f' [a|e]]; simpl in H1.
  - exists r1. exact H1.
  - destruct (Hh e f') as [r2 H2]. exists (r1 ++ r2).
    now rewrite H2, H1, app_assoc.
Qed.

Create HintDb service.

#[local] Hint Resolve extends_ret extends_raise extends_call extends_locals
  extends_assign_messages extends_assign_original_content
  extends_assign_content : service.

Ltac extends_steps :=
  repeat first
    [ apply extends_bind; [ | intros ? ]
    | solve [ auto with service ] ].

Lemma extends_check_post_count : extends (check_post_count self request).
Proof.
  unfold check_post_count. destruct (length (posts request) <? 5);
    extends_steps.
Qed.

Lemma extends_get_content r : extends (get_content r).
Proof. destruct r; simpl; auto with service. Qed.

Lemma extends_guarded : extends (guarded self request).
Proof.
  unfold guarded.
  pose proof extends_check_post_count. pose proof extends_get_content.
  extends_steps.
Qed.

Lemma extends_handler e : extends (handler self e).
Proof.
  unfold handler. destruct (isinstance e "InvalidQueryParameterError");
    [auto with service|].
  destruct (isinstance e "Exception"); extends_steps.
Qed.

(** *** The shape of a run *)

Lemma run_generate_bot_post :
  run (generate_bot_post self request) =
  match langfuse_trace self (open_args self request) with
  | Return _ =>
      let (f, o) := try_except (guarded self request) (handler self) opened in
      (calls f, o)
  | Raise e => ([Call_langfuse_trace (open_args self request)], Raise e)
  end.
Proof.
  unfold run, generate_bot_post, bind, call, empty_frame, opened.
  cbn [calls app local_messages local_original_content local_content].
  destruct (langfuse_trace self (open_args self request)); reflexivity.
Qed.

Lemma bind_ret {A B} (a : A) (k : A -> M Post Board Prompt Param B) f :
  bind (ret a) k f = k a f.
Proof. reflexivity. Qed.

Lemma first_call_bind {A B} ev (o : outcome A)
  (k : A -> M Post Board Prompt Param B) :
  (forall a, extends (k a)) ->
  forall f, exists rest,
    calls (fst (bind (call ev o) k f)) = calls f ++ ev :: rest.
Proof.
  intros Hk f. unfold bind, call. destruct o as [a|e].
  - destruct (Hk a {| calls := calls f ++ [ev];
                      local_messages := local_messages f;
                      local_original_content := local_original_content f;
                      local_content := local_content f |}) as [rest H].
    exists rest. rewrite H. simpl. now rewrite <- app_assoc.
  - exists []. reflexivity.
Qed.

(** With fewer than five posts the [try] block updates the trace and
    raises. *)
Lemma guarded_too_few f :
  (length (posts request) <? 5) = true ->
  guarded self request f =
  ({| calls := calls f ++ [Call_trace_update invalid_posts_update];
      local_messages := local_messages f;
      local_original_content := local_original_content f;
      local_content := local_content f |},
   match trace_update self invalid_posts_update with
   | Return _ => Raise (InvalidQueryParameterError self)
   | Raise e => Raise e
   end).
Proof.
  intros H. unfold guarded, check_post_count. rewrite H.
  unfold bind, call, raise.
  destruct (trace_update self invalid_posts_update); reflexivity.
Qed.

(** With five posts or more the count check passes without a call and the
    next call is the construction of the prompt template. *)
Lemma guarded_enough f :
  (length (posts request) <? 5) = false ->
  check_post_count self request f = (f, Return tt) /\
  exists rest,
    calls (fst (guarded self request f)) =
    calls f ++ Call_BotPostsPrompt :: rest.
Proof.
  intros H. unfold guarded, check_post_count. rewrite H.
  split; [reflexivity|]. rewrite bind_ret.
  apply first_call_bind. intros _.
  pose proof extends_get_content. extends_steps.
Qed.

(** When every collaborator answers, the request succeeds with the cleaned
    content of the model's answer, the empty text standing in for an absent
    content. *)
Lemma generate_bot_post_success bot_user prompt messages r :
  (length (posts request) <? 5) = false ->
  langfuse_trace self (open_args self request) = Return tt ->
  BotPostsPrompt_init self = Return tt ->
  get_bot_user_info self = Return bot_user ->
  json_to_messages self (posts request) (mode self) =
    Return (prompt, messages) ->
  model_get_response self messages prompt (str "generate_bot_post") =
    Return (Some r) ->
  (forall rec, log_inference_to_langfuse self rec = Return tt) ->
  (forall u, trace_update self u = Return tt) ->
  let original_content :=
    match result_content r with Some c => c | None => [] end in
  let cleaned := clean_response original_content in
  run (generate_bot_post self request) =
  ([Call_langfuse_trace (open_args self request);
    Call_BotPostsPrompt;
    Call_get_bot_user_info;
    Call_json_to_messages (posts request) (mode self);
    Call_get_response messages prompt (str "generate_bot_post");
    Call_log_inference_to_langfuse
      (inference_log self (str "generate_bot_post_original") prompt messages
         original_content);
    Call_log_inference_to_langfuse
      (inference_log self (str "generate_bot_post_cleaned") prompt messages
         cleaned);
    Call_trace_update (output_update cleaned)],
   Return {| message := response_message;
             data := {| data_board_type := board_type request;
                        user := bot_user;
                        content := cleaned |} |}).
Proof.
  intros Hlen Hopen Hinit Huser Hjson Hmodel Hlog Hupd original_content cleaned.
  rewrite run_generate_bot_post, Hopen.
  unfold try_except, guarded, check_post_count. rewrite Hlen.
  unfold bind, call, ret, get_content, assign_messages,
    assign_original_content, assign_content, opened.
  rewrite Hinit, Huser, Hjson. cbn [fst snd]. rewrite Hmodel.
  cbn -[clean_response str]. rewrite !Hlog, Hupd. reflexivity.
Qed.

(** *** What the handler finds *)

(** Case analysis over the answers of the collaborators. *)
Ltac answer_case :=
  match goal with
  | |- context [trace_update self ?u] =>
      destruct (trace_update self u) as [[]|?] eqn:?
  | |- context [BotPostsPrompt_init self] =>
      destruct (BotPostsPrompt_init self) as [[]|?] eqn:?
  | |- context [get_bot_user_info self] =>
      destruct (get_bot_user_info self) as [?|?] eqn:?
  | |- context [json_to_messages self ?a ?b] =>
      destruct (json_to_messages self a b) as [[? ?]|?] eqn:?
  | |- context [model_get_response self ?a ?b ?c] =>
      destruct (model_get_response self a b c) as [[?|]|?] eqn:?
  | |- context [log_inference_to_langfuse self ?r] =>
      destruct (log_inference_to_langfuse self r) as [[]|?] eqn:?
  end.

Ltac answers :=
  unfold guarded, check_post_count, get_content, bind, call, ret, raise,
    assign_messages, assign_original_content, assign_content, opened;
  repeat (cbn -[clean_response str text_eqb Nat.ltb]; try answer_case);
  cbn -[clean_response str text_eqb Nat.ltb].

(** Wherever the [try] block stops, the local variables the handler looks up
    hold what the calls made so far show: [messages] is assigned exactly
    when the model has been called, with the messages of that call;
    [original_content] exactly when the original inference record has been
    logged, with its content; [content] exactly when the cleaned record has
    been logged, with its content. *)
Lemma guarded_context f o :
  guarded self request opened = (f, o) ->
  local_messages f = sent_messages (calls f) /\
  local_original_content f =
    logged_content (str "generate_bot_post_original") (calls f) /\
  local_content f =
    logged_content (str "generate_bot_post_cleaned") (calls f).
Proof.
  destruct (length (posts request) <? 5) eqn:Hlen;
    answers; rewrite Hlen; answers;
    intros H; injection H as <- _; cbn -[clean_response str text_eqb];
    repeat split;
    repeat (first
      [ change (text_eqb (str "generate_bot_post_original")
                  (str "generate_bot_post_original")) with true
      | change (text_eqb (str "generate_bot_post_cleaned")
                  (str "generate_bot_post_cleaned")) with true
      | change (text_eqb (str "generate_bot_post_original")
                  (str "generate_bot_post_cleaned")) with false
      | change (text_eqb (str "generate_bot_post_cleaned")
                  (str "generate_bot_post_original")) with false ];
      cbv iota);
    reflexivity.
Qed.

(** The handler never returns a response. *)
Lemma handler_raises e f :
  exists f' e', handler self e f = (f', Raise e').
Proof.
  unfold handler.
  destruct (isinstance e "InvalidQueryParameterError");
    [unfold raise; eauto|].
  destruct (isinstance e "Exception"); [|unfold raise; eauto].
  unfold bind, call, locals, raise.
  destruct (trace_update self _); eauto.
Qed.

(** C3, amended: once the trace is open, an exception [e] that leaves the
    [try] block in frame [f] is mapped as follows.  An
    [InvalidQueryParameterError] is re-raised as it is.  Any other exception
    below [Exception] is logged and recorded into the trace with status
    "error", its text, its class name and the context reached so far: the
    messages if the model has been called, the original content if it has
    been logged, the cleaned content if it has been logged, and [None] for
    each of these otherwise.  Then [InternalServerError] is raised, whose
    class and text are fixed and do not depend on [e], unless the recording
    itself raises.  An exception not below [Exception] passes through. *)
Theorem failure_mapping f e :
  langfuse_trace self (open_args self request) = Return tt ->
  guarded self request opened = (f, Raise e) ->
  run (generate_bot_post self request) =
  if isinstance e "InvalidQueryParameterError" then (calls f, Raise e)
  else if isinstance e "Exception" then
    let record :=
      {| upd_status := Some (str "error");
         upd_error := Some (exn_str e);
         upd_metadata :=
           Some (MetaFailure (exn_class e)
                   (sent_messages (calls f))
                   (logged_content (str "generate_bot_post_original")
                      (calls f))
                   (logged_content (str "generate_bot_post_cleaned")
                      (calls f)));
         upd_output := None |} in
    (calls f ++
       [Call_logger_error (str "Error generating bot post: " ++ exn_str e);
        Call_trace_update record],
     match trace_update self record with
     | Return _ => Raise (InternalServerError self)
     | Raise e' => Raise e'
     end)
  else (calls f, Raise e).
Proof.
  intros Hopen Hbody.
  destruct (guarded_context f (Raise e) Hbody) as (Hm & Ho & Hc).
  rewrite run_generate_bot_post, Hopen.
  unfold try_except. rewrite Hbody. unfold handler.
  destruct (isinstance e "InvalidQueryParameterError"); [reflexivity|].
  destruct (isinstance e "Exception"); [|reflexivity].
  unfold bind, call, locals, raise, failure_update. cbn -[str].
  rewrite Hm, Ho, Hc.
  destruct (trace_update self _); cbn -[str]; f_equal;
    apply (eq_sym (app_assoc (calls f) [_] [_])).
Qed.

(** C4, amended: a request with fewer than five posts never returns a
    response, and fails with [InvalidQueryParameterError] when the sink
    accepts the trace open and the error update that come before the raise;
    with five posts or more the count check returns without a call and,
    the trace being open, the request goes on to build the prompt. *)
Theorem validation_gate :
  if length (posts request) <? 5 then
    (exists e, snd (run (generate_bot_post self request)) = Raise e) /\
    (langfuse_trace self (open_args self request) = Return tt ->
     trace_update self invalid_posts_update = Return tt ->
     run (generate_bot_post self request) =
     ([Call_langfuse_trace (open_args self request);
       Call_trace_update invalid_posts_update],
      Raise (InvalidQueryParameterError self)))
  else
    check_post_count self request opened = (opened, Return tt) /\
    (langfuse_trace self (open_args self request) = Return tt ->
     exists rest,
       fst (run (generate_bot_post self request)) =
       Call_langfuse_trace (open_args self request)
         :: Call_BotPostsPrompt :: rest).
Proof.
  destruct (length (posts request) <? 5) eqn:Hlen.
  - split.
    + rewrite run_generate_bot_post.
      destruct (langfuse_trace self (open_args self request)) as [[]|e0];
        [|eexists; reflexivity].
      unfold try_except. rewrite (guarded_too_few opened Hlen).
      destruct (trace_update self invalid_posts_update) as [[]|e0].
      * destruct (handler_raises (InvalidQueryParameterError self)
          {| calls := calls opened ++ [Call_trace_update invalid_posts_update];
             local_messages := local_messages opened;
             local_original_content := local_original_content opened;
             local_content := local_content opened |}) as (f' & e' & H).
        rewrite H. eexists. reflexivity.
      * destruct (handler_raises e0
          {| calls := calls opened ++ [Call_trace_update invalid_posts_update];
             local_messages := local_messages opened;
             local_original_content := local_original_content opened;
             local_content := local_content opened |}) as (f' & e' & H).
        rewrite H. eexists. reflexivity.
    + intros Hopen Hupd.
      rewrite run_generate_bot_post, Hopen. unfold try_except.
      rewrite (guarded_too_few opened Hlen), Hupd. reflexivity.
  - destruct (guarded_enough opened Hlen) as [Hcheck [rest Hrest]].
    split; [exact Hcheck|]. intros Hopen.
    rewrite run_generate_bot_post, Hopen. unfold try_except.
    destruct (guarded self request opened) as [f [a|e]]; simpl in *.
    + exists rest. exact Hrest.
    + destruct (extends_handler e f) as [rest' H].
      destruct (handler self e f) as [f' o]. simpl in *.
      exists (rest ++ rest'). rewrite H, Hrest. reflexivity.
Qed.

(** C5: when the model's answer has no content, the original content is the
    empty text, which is logged, cleaned and returned: the request succeeds
    with empty content. *)
Theorem absent_content_flows_through bot_user prompt messages r :
  (length (posts request) <? 5) = false ->
  langfuse_trace self (open_args self request) = Return tt ->
  BotPostsPrompt_init self = Return tt ->
  get_bot_user_info self = Return bot_user ->
  json_to_messages self (posts request) (mode self) =
    Return (prompt, messages) ->
  model_get_response self messages prompt (str "generate_bot_post") =
    Return (Some r) ->
  result_content r = None ->
  (forall rec, log_inference_to_langfuse self rec = Return tt) ->
  (forall u, trace_update self u = Return tt) ->
  run (generate_bot_post self request) =
  ([Call_langfuse_trace (open_args self request);
    Call_BotPostsPrompt;
    Call_get_bot_user_info;
    Call_json_to_messages (posts request) (mode self);
    Call_get_response messages prompt (str "generate_bot_post");
    Call_log_inference_to_langfuse
      (inference_log self (str "generate_bot_post_original") prompt messages
         []);
    Call_log_inference_to_langfuse
      (inference_log self (str "generate_bot_post_cleaned") prompt messages
         []);
    Call_trace_update (output_update [])],
   Return {| message := response_message;
             data := {| data_board_type := board_type request;
                        user := bot_user;
                        content := [] |} |}).
Proof.
  intros Hlen Hopen Hinit Huser Hjson Hmodel Hnone Hlog Hupd.
  rewrite (generate_bot_post_success bot_user prompt messages r);
    try assumption.
  rewrite Hnone. reflexivity.
Qed.

(** C6: with five posts and every collaborator answering, a model answer
    with content "Bot: I agree! [laughs]   Great point." gives a response
    whose content is "I agree! Great point.". *)
Theorem end_to_end bot_user prompt messages r :
  length (posts request) = 5 ->
  langfuse_trace self (open_args self request) = Return tt ->
  BotPostsPrompt_init self = Return tt ->
  get_bot_user_info self = Return bot_user ->
  json_to_messages self (posts request) (mode self) =
    Return (prompt, messages) ->
  model_get_response self messages prompt (str "generate_bot_post") =
    Return (Some r) ->
  result_content r = Some (str "Bot: I agree! [laughs]   Great point.") ->
  (forall rec, log_inference_to_langfuse self rec = Return tt) ->
  (forall u, trace_update self u = Return tt) ->
  snd (run (generate_bot_post self request)) =
  Return {| message := response_message;
            data := {| data_board_type := board_type request;
                       user := bot_user;
                       content := str "I agree! Great point." |} |}.
Proof.
  intros Hlen Hopen Hinit Huser Hjson Hmodel Hcontent Hlog Hupd.
  rewrite (generate_bot_post_success bot_user prompt messages r);
    try assumption.
  - rewrite Hcontent. reflexivity.
  - now rewrite Hlen.
Qed.

(** C8, amended: the trace open is the first call of every request, made
    before the count of posts is checked; when the count is below five and
    the trace has opened, the next call updates that trace with the
    validation error. *)
Theorem trace_open_precedes_count_check :
  exists rest,
    fst (run (generate_bot_post self request)) =
    Call_langfuse_trace (open_args self request) :: rest /\
    (langfuse_trace self (open_args self request) = Return tt ->
     (length (posts request) <? 5) = true ->
     exists rest', rest = Call_trace_update invalid_posts_update :: rest').
Proof.
  rewrite run_generate_bot_post.
  destruct (langfuse_trace self (open_args self request)) as [[]|e0].
  - destruct (length (posts request) <? 5) eqn:Hlen.
    + unfold try_except. rewrite (guarded_too_few opened Hlen).
      destruct (trace_update self invalid_posts_update) as [[]|e].
      * eexists. split; [reflexivity|]. intros _ _. eexists. reflexivity.
      * destruct (extends_handler e
          {| calls := calls opened ++ [Call_trace_update invalid_posts_update];
             local_messages := local_messages opened;
             local_original_content := local_original_content opened;
             local_content := local_content opened |}) as [rest H].
        destruct (handler self e _) as [f' o]. simpl in *.
        exists (Call_trace_update invalid_posts_update :: rest).
        split; [exact H|]. intros _ _. eexists. reflexivity.
    + destruct (extends_try_except _ _ extends_guarded extends_handler opened)
        as [rest H].
      destruct (try_except (guarded self request) (handler self) opened)
        as [f o]. simpl in *. exists rest. split; [exact H|].
      intros _ Hfalse. discriminate.
  - exists []. split; [reflexivity|]. intros Hfalse. discriminate.
Qed.

End Pipeline.

(** *** Concrete runs *)

(** C3, as stated, fails at the trace open (step 2): it lies before the
    [try], so what it raises reaches the caller as it is, neither recorded
    nor turned into [InternalServerError]. *)
Lemma trace_open_failure_escapes :
  run (generate_bot_post sink_down five_posts) =
    ([Call_langfuse_trace (open_args sink_down five_posts)], Raise sink_error)
  /\ isinstance sink_error "InvalidQueryParameterError" = false
  /\ sink_error <> InternalServerError sink_down.
Proof. repeat split. discriminate. Qed.

Lemma failure_mapping_witness :
  run (generate_bot_post output_refused five_posts) =
  ([Call_langfuse_trace (open_args output_refused five_posts);
    Call_BotPostsPrompt;
    Call_get_bot_user_info;
    Call_json_to_messages [tt; tt; tt; tt; tt] (str "gcp");
    Call_get_response hello tt (str "generate_bot_post");
    Call_log_inference_to_langfuse
      (inference_log output_refused (str "generate_bot_post_original") tt
         hello (str "Bot: hi"));
    Call_log_inference_to_langfuse
      (inference_log output_refused (str "generate_bot_post_cleaned") tt
         hello (str "hi"));
    Call_trace_update (output_update (str "hi"));
    Call_logger_error (str "Error generating bot post: sink unreachable");
    Call_trace_update
      {| upd_status := Some (str "error");
         upd_error := Some (str "sink unreachable");
         upd_metadata :=
           Some (MetaFailure "ConnectionError" (Some hello)
                   (Some (str "Bot: hi")) (Some (str "hi")));
         upd_output := None |}],
   Raise (InternalServerError output_refused)).
Proof.
  assert (E : guarded output_refused five_posts
                (BotPostsService.opened output_refused five_posts) =
              ({| calls :=
                    [Call_langfuse_trace (open_args output_refused five_posts);
                     Call_BotPostsPrompt;
                     Call_get_bot_user_info;
                     Call_json_to_messages [tt; tt; tt; tt; tt] (str "gcp");
                     Call_get_response hello tt (str "generate_bot_post");
                     Call_log_inference_to_langfuse
                       (inference_log output_refused
                          (str "generate_bot_post_original") tt hello
                          (str "Bot: hi"));
                     Call_log_inference_to_langfuse
                       (inference_log output_refused
                          (str "generate_bot_post_cleaned") tt hello
                          (str "hi"));
                     Call_trace_update (output_update (str "hi"))];
                  local_messages := Some hello;
                  local_original_content := Some (str "Bot: hi");
                  local_content := Some (str "hi") |},
               Raise sink_error))
    by (vm_compute; reflexivity).
  exact (failure_mapping _ _ _ _ _ output_refused five_posts _ _ eq_refl E).
Defined.

(** The context by point of failure: nothing when prompt construction
    raises, the messages alone when the model call gives nothing to read. *)
Example failure_context_none :
  run (generate_bot_post template_fails five_posts) =
  ([Call_langfuse_trace (open_args template_fails five_posts);
    Call_BotPostsPrompt;
    Call_get_bot_user_info;
    Call_json_to_messages [tt; tt; tt; tt; tt] (str "colab");
    Call_logger_error (str "Error generating bot post: unknown template");
    Call_trace_update
      {| upd_status := Some (str "error");
         upd_error := Some (str "unknown template");
         upd_metadata := Some (MetaFailure "ValueError" None None None);
         upd_output := None |}],
   Raise (InternalServerError template_fails)).
Proof. reflexivity. Qed.

Example failure_context_messages :
  last (fst (run (generate_bot_post model_silent five_posts)))
       Call_BotPostsPrompt =
  Call_trace_update
    {| upd_status := Some (str "error");
       upd_error := Some (str "'NoneType' object has no attribute 'get'");
       upd_metadata :=
         Some (MetaFailure "AttributeError" (Some hello) None None);
       upd_output := None |}.
Proof. reflexivity. Qed.

(** C4, as stated, fails where the sink does not answer: a request with
    four posts ends in the sink's own error when the trace cannot be
    opened, and in [InternalServerError] when the error update is refused,
    in neither case in an [InvalidQueryParameterError]. *)
Lemma too_few_posts_other_error :
  length (posts four_posts) = 4
  /\ snd (run (generate_bot_post sink_down four_posts)) = Raise sink_error
  /\ isinstance sink_error "InvalidQueryParameterError" = false
  /\ snd (run (generate_bot_post update_refused four_posts)) =
       Raise (InternalServerError update_refused)
  /\ isinstance (InternalServerError update_refused)
       "InvalidQueryParameterError" = false.
Proof. repeat split. Qed.

Lemma validation_gate_witness :
  run (generate_bot_post (answering None) four_posts) =
    ([Call_langfuse_trace (open_args (answering None) four_posts);
      Call_trace_update invalid_posts_update],
     Raise (InvalidQueryParameterError (answering None)))
  /\
  exists rest,
    fst (run (generate_bot_post (answering None) five_posts)) =
    Call_langfuse_trace (open_args (answering None) five_posts)
      :: Call_BotPostsPrompt :: rest.
Proof.
  split.
  - exact (proj2 (validation_gate _ _ _ _ _ (answering None) four_posts)
             eq_refl eq_refl).
  - exact (proj2 (validation_gate _ _ _ _ _ (answering None) five_posts)
             eq_refl).
Defined.

Lemma absent_content_flows_through_witness :
  snd (run (generate_bot_post (answering None) five_posts)) =
  Return {| message := response_message;
            data := {| data_board_type := tt; user := tt; content := [] |} |}.
Proof.
  rewrite (absent_content_flows_through _ _ _ _ _ (answering None) five_posts tt tt hello
             {| status_code := 502; source := str "colab";
                result_content := None;
                result_error := Some (str "Bad Gateway") |});
    reflexivity.
Defined.

Lemma end_to_end_witness :
  snd (run (generate_bot_post
              (answering (Some (str "Bot: I agree! [laughs]   Great point.")))
              five_posts)) =
  Return {| message := response_message;
            data := {| data_board_type := tt; user := tt;
                       content := str "I agree! Great point." |} |}.
Proof.
  apply (end_to_end _ _ _ _ _
           (answering (Some (str "Bot: I agree! [laughs]   Great point.")))
           five_posts tt tt hello
           {| status_code := 200; source := str "colab";
              result_content :=
                Some (str "Bot: I agree! [laughs]   Great point.");
              result_error := None |});
    reflexivity.
Defined.

(** C8, as stated, fails: the trace is opened before the count of posts is
    checked.  A request with four posts opens a trace, which is then
    updated with the validation error; and when the sink refuses the trace,
    the same request ends with the sink's error, the count never checked. *)
Lemma trace_opened_before_count_check :
  length (posts four_posts) < 5
  /\ run (generate_bot_post (answering None) four_posts) =
       ([Call_langfuse_trace (open_args (answering None) four_posts);
         Call_trace_update invalid_posts_update],
        Raise (InvalidQueryParameterError (answering None)))
  /\ run (generate_bot_post sink_down four_posts) =
       ([Call_langfuse_trace (open_args sink_down four_posts)],
        Raise sink_error).
Proof. repeat split. simpl. lia. Qed.

Lemma trace_open_precedes_count_check_witness :
  exists rest,
    fst (run (generate_bot_post (answering None) four_posts)) =
    Call_langfuse_trace (open_args (answering None) four_posts)
      :: Call_trace_update invalid_posts_update :: rest.
Proof.
  destruct (trace_open_precedes_count_check _ _ _ _ _ (answering None) four_posts)
    as [rest [H1 H2]].
  destruct (H2 eq_refl eq_refl) as [rest' H3].
  exists rest'. rewrite H1, H3. reflexivity.
Defined.

End PostsFacts.

(** ** Facts about [BotChatsService.generate_bot_chat] *)

Module ChatsFacts.
Import BotChatsService.

(** C9: whatever the request, [generate_bot_chat] returns the placeholder:
    status "success", the fixed message and the fixed content. *)
Theorem generate_bot_chat_placeholder (BotChatsRequest : Type)
  (request other : BotChatsRequest) :
  generate_bot_chat request =
    Return {| status := str "success";
              message := str "Bot chat message generated successfully";
              data := {| content := placeholder_content |} |}
  /\ generate_bot_chat request = generate_bot_chat other.
Proof. split; reflexivity. Qed.

End ChatsFacts.

(** * Further properties of the cleaning steps *)

Module CleaningMore.
Import BotPostsService.

(** ** Helper facts *)

Lemma thins_trans a b : thins a b -> forall c, thins b c -> thins a c.
Proof.
  intros H. induction H as [|ch s u H IH|ch s u H IH|ch s u Hs H IH];
    intros c Hc.
  - exact Hc.
  - inversion Hc; subst.
    + apply thins_keep; auto.
    + apply thins_delete; auto.
    + apply thins_space; auto.
  - apply thins_delete; auto.
  - inversion Hc; subst.
    + apply thins_space; auto.
    + apply thins_delete; auto.
    + apply thins_space; auto.
Qed.

Lemma thins_In s u : thins s u -> forall c, In c u -> In c (chr_space :: s).
Proof.
  intros H. induction H as [|ch s u H IH|ch s u H IH|ch s u Hs H IH];
    intros c Hc.
  - destruct Hc.
  - destruct Hc as [<-|Hc]; [right; left; reflexivity|].
    destruct (IH c Hc) as [E|E]; [left; exact E | right; right; exact E].
  - destruct (IH c Hc) as [E|E]; [left; exact E | right; right; exact E].
  - destruct Hc as [<-|Hc]; [left; reflexivity|].
    destruct (IH c Hc) as [E|E]; [left; exact E | right; right; exact E].
Qed.

Lemma thins_clean_response x : thins x (clean_response x).
Proof.
  unfold clean_response.
  apply (thins_trans _ _ (thins_colon_rule x)).
  apply (thins_trans _ _ (thins_remove_bracketed _)).
  apply (thins_trans _ _ (thins_collapse_spaces _)).
  apply thins_strip.
Qed.

Lemma rstrip_last s a c : rstrip s = a ++ [c] -> isspace c = false.
Proof.
  revert a; induction s as [|x r IH]; intros a; cbn [rstrip].
  - destruct a; discriminate.
  - destruct (rstrip r) as [|y u] eqn:E.
    + destruct (isspace x) eqn:Ex; [destruct a; discriminate|].
      destruct a as [|a0 a]; intros H; inversion H; subst; [exact Ex|].
      destruct a; discriminate.
    + destruct a as [|a0 a]; intros H; inversion H; subst; eauto.
Qed.

Lemma rstrip_ends s : starts_space (rev (rstrip s)) = false.
Proof.
  destruct (rev (rstrip s)) as [|c t] eqn:E; [reflexivity|].
  apply (f_equal (@rev char)) in E. rewrite rev_involutive in E.
  cbn [rev] in E. exact (rstrip_last _ _ _ E).
Qed.

Lemma all_space_no (p : char -> bool) s :
  (forall c, isspace c = true -> p c = false) ->
  forallb isspace s = true -> existsb p s = false.
Proof.
  intros Hp. induction s as [|c r IH]; cbn [forallb existsb]; [reflexivity|].
  intros H. apply andb_prop in H as [Hc Hr]. now rewrite (Hp c Hc), IH.
Qed.

Lemma isspace_not (k : char) c :
  isspace k = false -> isspace c = true -> (k =? c)%N = false.
Proof.
  intros Hk Hc. destruct (k =? c)%N eqn:E; [|reflexivity].
  apply N.eqb_eq in E. subst. congruence.
Qed.

Lemma drop_while_all p s : forallb p s = true -> drop_while p s = [].
Proof.
  induction s as [|c r IH]; cbn [forallb drop_while]; [reflexivity|].
  intros H. apply andb_prop in H as [Hc Hr]. now rewrite Hc, IH.
Qed.

Lemma no_lbracket_no_bracketed s :
  existsb (N.eqb chr_lbracket) s = false -> has_bracketed s = false.
Proof.
  unfold has_bracketed.
  induction s as [|c r IH]; cbn [existsb matches_somewhere match_bracketed];
    [reflexivity|].
  rewrite (N.eqb_sym chr_lbracket c). intros H.
  apply orb_false_iff in H as [H1 H2]. rewrite H1. exact (IH H2).
Qed.

(** ** The result of cleaning *)

(** X1: Cleaning never makes a text longer. *)
Theorem clean_response_never_longer (x : text) :
  length (clean_response x) <= length x.
Proof.
  unfold clean_response.
  pose proof (colon_rule_length x).
  pose proof (remove_bracketed_length (colon_rule x)).
  pose proof (collapse_spaces_length (remove_bracketed (colon_rule x))).
  pose proof (strip_length (collapse_spaces (remove_bracketed (colon_rule x)))).
  lia.
Qed.

(** X2: The cleaned text has its whitespace in normal form: every whitespace
    character in it is a space with no whitespace behind it, and neither
    its first nor its last character is whitespace. *)
Theorem clean_response_whitespace_normal (x : text) :
  collapsed (clean_response x) = true /\
  starts_space (clean_response x) = false /\
  starts_space (rev (clean_response x)) = false.
Proof.
  split; [apply collapsed_strip, collapse_spaces_collapsed|].
  unfold clean_response, strip, lstrip. split.
  - apply starts_space_rstrip, starts_space_drop_while.
  - apply rstrip_ends.
Qed.

(** X3: Cleaning only deletes characters and turns whitespace into spaces: the
    cleaned text is a thinning of the input, so each of its characters is a
    character of the input or a space. *)
Theorem clean_response_only_thins (x : text) :
  thins x (clean_response x) /\
  incl (clean_response x) (chr_space :: x).
Proof.
  split; [apply thins_clean_response|].
  intros c Hc. exact (thins_In _ _ (thins_clean_response x) c Hc).
Qed.

(** X4: A text of whitespace only, the empty text included, cleans to the empty
    text. *)
Theorem clean_response_blank (x : text) :
  forallb isspace x = true -> clean_response x = [].
Proof.
  intros H. unfold clean_response.
  rewrite colon_rule_no_colon
    by (apply all_space_no; [intros c; now apply isspace_not | exact H]).
  rewrite remove_bracketed_none
    by (apply no_lbracket_no_bracketed, all_space_no;
        [intros c; now apply isspace_not | exact H]).
  destruct x as [|c r]; [now rewrite collapse_spaces_nil|].
  cbn [forallb] in H. apply andb_prop in H as [Hc Hr].
  rewrite (collapse_spaces_space c r Hc), (drop_while_all _ _ Hr),
    collapse_spaces_nil.
  reflexivity.
Qed.

Lemma clean_response_blank_witness :
  clean_response [32; 9; 10; 160; 12288]%N = [].
Proof. apply clean_response_blank. reflexivity. Defined.

Lemma clean_response_idempotent_one_colon_witness :
  clean_response (clean_response (str "Bot: hi [waves] there")) =
  clean_response (str "Bot: hi [waves] there").
Proof. apply clean_response_idempotent_one_colon; reflexivity. Defined.

(** X6: A further pass over a cleaned text leaves it as it is or makes it
    strictly shorter, so repeated cleaning comes to rest. *)
Theorem clean_response_settles (x : text) :
  clean_response (clean_response x) = clean_response x \/
  length (clean_response (clean_response x)) < length (clean_response x).
Proof.
  destruct (has_colon (clean_response x)) eqn:Hc.
  - right. apply clean_response_shrinks. now left.
  - destruct (has_bracketed (clean_response x)) eqn:Hb.
    + right. apply clean_response_shrinks. now right.
    + left. apply clean_response_fixed; try assumption.
      * apply clean_response_collapsed.
      * apply clean_response_stripped.
Qed.

(** X7: A label in front of the only colon is dropped without trace: the text
    cleans like what stands behind the colon, whatever the label holds. *)
Theorem clean_response_drops_label (a b : text) :
  has_colon a = false -> has_colon b = false ->
  clean_response (a ++ chr_colon :: b) = clean_response b.
Proof.
  intros Ha Hb. unfold clean_response.
  now rewrite (colon_rule_first a b Ha), (colon_rule_no_colon b Hb).
Qed.

Lemma clean_response_drops_label_witness :
  clean_response (str "[System] Bot" ++ chr_colon :: str " hi") =
  clean_response (str " hi").
Proof. apply clean_response_drops_label; reflexivity. Defined.

(** ** The single steps *)

Lemma lazy_to_rbracket_remove s :
  lazy_to_rbracket s = None -> lazy_to_rbracket (remove_bracketed s) = None.
Proof.
  unfold remove_bracketed.
  induction s as [|d r IH]; [now rewrite re_sub_nil|].
  cbn [lazy_to_rbracket]. intros H.
  destruct (d =? chr_rbracket)%N eqn:Ed; [discriminate|].
  destruct (match_bracketed (d :: r)) as [rest|] eqn:E.
  - cbn [match_bracketed] in E.
    destruct (d =? chr_lbracket)%N eqn:El; [|discriminate].
    apply N.eqb_eq in El. subst d.
    change (chr_lbracket =? chr_newline)%N with false in H. congruence.
  - rewrite (re_sub_keep _ _ _ _ _ E). cbn [lazy_to_rbracket]. rewrite Ed.
    destruct (d =? chr_newline)%N; [reflexivity | exact (IH H)].
Qed.

Lemma remove_bracketed_clear s : has_bracketed (remove_bracketed s) = false.
Proof.
  unfold has_bracketed.
  induction s as [s IH] using (well_founded_induction
    (Wf_nat.well_founded_ltof _ (@length char))).
  destruct s as [|c r]; [unfold remove_bracketed; now rewrite re_sub_nil|].
  destruct (match_bracketed (c :: r)) as [rest|] eqn:E.
  - unfold remove_bracketed. rewrite (re_sub_match _ _ _ _ _ _ E). cbn [app].
    apply IH. exact (match_bracketed_shorter _ E).
  - unfold remove_bracketed. rewrite (re_sub_keep _ _ _ _ _ E).
    fold (remove_bracketed r). cbn [matches_somewhere].
    assert (Hm : match_bracketed (c :: remove_bracketed r) = None).
    { cbn [match_bracketed] in *.
      destruct (c =? chr_lbracket)%N; [|reflexivity].
      now apply lazy_to_rbracket_remove. }
    rewrite Hm. apply IH. unfold ltof. simpl. lia.
Qed.

Lemma lazy_to_rbracket_first a b :
  has_rbracket a = false -> has_newline a = false ->
  lazy_to_rbracket (a ++ chr_rbracket :: b) = Some b.
Proof.
  unfold has_rbracket, has_newline.
  induction a as [|c a IH]; cbn [existsb lazy_to_rbracket app];
    [now rewrite N.eqb_refl|].
  rewrite (N.eqb_sym chr_rbracket c), (N.eqb_sym chr_newline c).
  intros H1 H2. apply orb_false_iff in H1 as [H1 H1'].
  apply orb_false_iff in H2 as [H2 H2']. rewrite H1, H2. auto.
Qed.

Lemma lazy_to_rbracket_line_feed a b :
  has_rbracket a = false ->
  lazy_to_rbracket (a ++ chr_newline :: b) = None.
Proof.
  unfold has_rbracket.
  induction a as [|c a IH]; cbn [existsb lazy_to_rbracket app];
    [reflexivity|].
  rewrite (N.eqb_sym chr_rbracket c).
  intros H1. apply orb_false_iff in H1 as [H1 H1']. rewrite H1.
  destruct (c =? chr_newline)%N; auto.
Qed.

Lemma drop_while_snoc p l c :
  drop_while p (l ++ [c]) =
  match drop_while p l with
  | [] => if p c then [] else [c]
  | l' => l' ++ [c]
  end.
Proof.
  induction l as [|x l IH]; cbn [app drop_while]; [reflexivity|].
  destruct (p x); [exact IH | reflexivity].
Qed.

Lemma rstrip_rev s : rstrip s = rev (lstrip (rev s)).
Proof.
  unfold lstrip. induction s as [|c r IH]; [reflexivity|].
  cbn [rstrip rev]. rewrite drop_while_snoc, IH.
  destruct (drop_while isspace (rev r)) as [|y l]; cbn [rev].
  - now destruct (isspace c).
  - rewrite rev_app_distr. cbn [rev app].
    destruct (rev l ++ [y]) eqn:E; [|reflexivity].
    destruct (rev l); discriminate.
Qed.

Lemma lstrip_rstrip_commute s : lstrip (rstrip s) = rstrip (lstrip s).
Proof.
  unfold lstrip. induction s as [|c r IH]; [reflexivity|].
  cbn [rstrip drop_while]. destruct (isspace c) eqn:Ec.
  - rewrite <- IH. destruct (rstrip r) as [|y u]; [reflexivity|].
    cbn [drop_while]. now rewrite Ec.
  - cbn [rstrip]. destruct (rstrip r) as [|y u]; cbn [drop_while];
      now rewrite ?Ec.
Qed.

(** X8: Each step behind the colon rule is idempotent on its own: a second
    removal of bracketed spans, a second collapse of whitespace and a second
    strip change nothing. *)
Theorem later_steps_idempotent (s : text) :
  remove_bracketed (remove_bracketed s) = remove_bracketed s /\
  collapse_spaces (collapse_spaces s) = collapse_spaces s /\
  strip (strip s) = strip s.
Proof.
  split; [apply remove_bracketed_none, remove_bracketed_clear|].
  split; [apply collapsed_fixed, collapse_spaces_collapsed|].
  unfold strip, lstrip.
  rewrite (drop_while_no_space (rstrip (drop_while isspace s))).
  - apply rstrip_idempotent.
  - apply starts_space_rstrip, starts_space_drop_while.
Qed.

(** X9: The bracket pattern is lazy: a span opened by a bracket ends at the
    first closing bracket behind it, and is removed whole when no line feed
    lies between. *)
Theorem remove_bracketed_span (a b : text) :
  has_rbracket a = false -> has_newline a = false ->
  remove_bracketed (chr_lbracket :: a ++ chr_rbracket :: b) =
  remove_bracketed b.
Proof.
  intros H1 H2. unfold remove_bracketed.
  rewrite (re_sub_match _ _ _ chr_lbracket (a ++ chr_rbracket :: b) b);
    [reflexivity|].
  cbn [match_bracketed]. rewrite N.eqb_refl.
  now apply lazy_to_rbracket_first.
Qed.

Lemma remove_bracketed_span_witness :
  remove_bracketed (chr_lbracket :: str "a [b" ++ chr_rbracket :: str " c]") =
  remove_bracketed (str " c]").
Proof. apply remove_bracketed_span; reflexivity. Defined.

(** X10: A span is not removed across a line feed: an opening bracket whose first
    closing bracket lies behind a line feed stays in the text. *)
Theorem remove_bracketed_line_feed (a b : text) :
  has_rbracket a = false ->
  remove_bracketed (chr_lbracket :: a ++ chr_newline :: b) =
  chr_lbracket :: remove_bracketed (a ++ chr_newline :: b).
Proof.
  intros H. unfold remove_bracketed. apply re_sub_keep.
  cbn [match_bracketed]. rewrite N.eqb_refl.
  now apply lazy_to_rbracket_line_feed.
Qed.

Lemma remove_bracketed_line_feed_witness :
  remove_bracketed (chr_lbracket :: str "a" ++ chr_newline :: str "b]") =
  chr_lbracket :: remove_bracketed (str "a" ++ chr_newline :: str "b]").
Proof. apply remove_bracketed_line_feed; reflexivity. Defined.

(** X11: A text with no closing bracket passes the bracket step unchanged, so
    an opening bracket that is never closed is kept. *)
Theorem remove_bracketed_unclosed (s : text) :
  has_rbracket s = false -> remove_bracketed s = s.
Proof.
  intros H. apply remove_bracketed_none. unfold has_bracketed.
  induction s as [|c r IH]; [reflexivity|].
  unfold has_rbracket in H. cbn [existsb] in H.
  apply orb_false_iff in H as [_ H].
  cbn [matches_somewhere match_bracketed].
  destruct (c =? chr_lbracket)%N; [|exact (IH H)].
  rewrite (lazy_to_rbracket_none r H). exact (IH H).
Qed.

Lemma remove_bracketed_unclosed_witness :
  remove_bracketed (str "see [1 and [2") = str "see [1 and [2".
Proof. apply remove_bracketed_unclosed; reflexivity. Defined.

(** X12: Stripping works from both ends alike: the right end is stripped as the
    left end of the reversed text is, the two ends can be stripped in
    either order, and the strip of a reversed text is the reversed strip. *)
Theorem strip_both_ends (s : text) :
  rstrip s = rev (lstrip (rev s)) /\
  lstrip (rstrip s) = rstrip (lstrip s) /\
  strip (rev s) = rev (strip s).
Proof.
  split; [apply rstrip_rev|]. split; [apply lstrip_rstrip_commute|].
  unfold strip. rewrite (rstrip_rev (lstrip (rev s))), <- (rstrip_rev s).
  rewrite lstrip_rstrip_commute. reflexivity.
Qed.

End CleaningMore.

(** * Further properties of [KoalphaLoader.get_response] *)

Module KoalphaMore.
Import KoalphaLoader.
Import Samples.
Import MoreSamples.

Lemma text_eqb_true a b : text_eqb a b = true -> a = b.
Proof. apply text_eqb_eq. Qed.

Lemma text_eqb_false a b : text_eqb a b = false -> a <> b.
Proof.
  intros H E. apply text_eqb_eq in E. congruence.
Qed.

(** X13: Whatever [get_response] returns is well formed: [None] comes only from
    a mode that is neither "colab" nor "gcp"; a result dictionary comes only
    from one of the two modes and has either status code 200 with a content
    and no error, or another status code with an error and no content. *)
Theorem get_response_result_shape (w : world) (mode : text)
  (messages : list Message) (o : option InferenceResult) :
  get_response w mode messages = Return o ->
  match o with
  | None => mode <> str "colab" /\ mode <> str "gcp"
  | Some r =>
      (mode = str "colab" \/ mode = str "gcp") /\
      ((status_code r = 200%Z /\ content r <> None /\ error r = None) \/
       (status_code r <> 200%Z /\ content r = None /\ error r <> None))
  end.
Proof.
  unfold get_response.
  destruct (text_eqb mode (str "colab")) eqn:Ec.
  - apply text_eqb_true in Ec. unfold get_response_colab, obind.
    destruct (requests_post w _ _) as [response|e]; [|discriminate].
    destruct (resp_status_code response =? 200)%Z eqn:Es; cbn [negb].
    + apply Z.eqb_eq in Es.
      destruct (resp_json response) as [body|e]; [|discriminate].
      destruct (subscript_key body "choices") as [v1|e]; [|discriminate].
      destruct (subscript_0 v1) as [v2|e]; [|discriminate].
      destruct (subscript_key v2 "message") as [v3|e]; [|discriminate].
      destruct (subscript_key v3 "content") as [v4|e]; [|discriminate].
      intros H. injection H as <-. cbn.
      split; [now left|]. left. repeat split; [exact Es | discriminate].
    + apply Z.eqb_neq in Es.
      destruct (resp_json response) as [body|e].
      * intros H. injection H as <-. cbn.
        split; [now left|]. right. repeat split; [exact Es | discriminate].
      * destruct (isinstance e "ValueError"); [|discriminate].
        intros H. injection H as <-. cbn.
        split; [now left|]. right. repeat split; [exact Es | discriminate].
  - apply text_eqb_false in Ec.
    destruct (text_eqb mode (str "gcp")) eqn:Eg.
    + apply text_eqb_true in Eg. unfold get_response_gcp, obind.
      destruct (AutoTokenizer_from_pretrained w model_path); [|discriminate].
      destruct (apply_chat_template w messages) as [p|e]; [|discriminate].
      destruct (model_vllm_generate w p) as [outputs|e].
      * destruct (first_text outputs) as [t|e].
        -- intros H. injection H as <-. cbn.
           split; [now right|]. left. repeat split. discriminate.
        -- destruct (isinstance e "Exception"); [|discriminate].
           intros H. injection H as <-. cbn.
           split; [now right|]. right. repeat split; discriminate.
      * destruct (isinstance e "Exception"); [|discriminate].
        intros H. injection H as <-. cbn.
        split; [now right|]. right. repeat split; discriminate.
    + apply text_eqb_false in Eg. intros H. injection H as <-. now split.
Qed.

Lemma get_response_result_shape_witness :
  (str "colab" = str "colab" \/ str "colab" = str "gcp") /\
  ((503%Z = 200%Z /\ @None pyval <> None /\
    Some (PStr (str "Service Unavailable")) = None) \/
   (503%Z <> 200%Z /\ @None pyval = None /\
    Some (PStr (str "Service Unavailable")) <> None)).
Proof.
  exact (get_response_result_shape failing_world (str "colab") hello
           (Some {| status_code := 503;
                    url := str "http://model/v1/chat/completions";
                    headers := Some [];
                    content := None;
                    error := Some (PStr (str "Service Unavailable")) |})
           eq_refl).
Defined.

(** X14: In remote mode a 200 answer in the chat-completion shape gives the
    message content of the first choice, with status code 200 and no error;
    further choices are not read. *)
Theorem get_response_colab_first_choice (w : world) (messages : list Message)
  (response : http_response) (items choice message : list (text * pyval))
  (others : list pyval) (c : pyval) :
  requests_post w (completions_url (getenv_MODEL_NGROK_URL w))
    (data messages) = Return response ->
  resp_status_code response = 200%Z ->
  resp_json response = Return (PDict items) ->
  dict_lookup items (str "choices") = Some (PList (PDict choice :: others)) ->
  dict_lookup choice (str "message") = Some (PDict message) ->
  dict_lookup message (str "content") = Some c ->
  get_response w (str "colab") messages =
  Return (Some {| status_code := 200;
                  url := resp_url response;
                  headers := None;
                  content := Some c;
                  error := None |}).
Proof.
  intros Hpost Hs Hj H1 H2 H3. unfold get_response.
  change (text_eqb (str "colab") (str "colab")) with true. cbv iota.
  unfold get_response_colab, obind. rewrite Hpost, Hs, Hj.
  cbn [negb Z.eqb Pos.eqb subscript_key]. rewrite H1. cbn [subscript_0 subscript_key].
  rewrite H2. cbn [subscript_key]. rewrite H3. reflexivity.
Qed.

Lemma get_response_colab_first_choice_witness :
  get_response (serving (completion (str "Bot: hi") [PNone]) (Return []))
    (str "colab") hello =
  Return (Some {| status_code := 200;
                  url := str "http://model/v1/chat/completions";
                  headers := None;
                  content := Some (PStr (str "Bot: hi"));
                  error := None |}).
Proof.
  apply (get_response_colab_first_choice _ _
           (completion (str "Bot: hi") [PNone])
           [(str "id", PStr (str "cmpl-1"));
            (str "choices",
             PList (PDict [(str "index", PInt 0);
                           (str "message",
                            PDict [(str "role", PStr (str "assistant"));
                                   (str "content", PStr (str "Bot: hi"))])]
                    :: [PNone]))]
           [(str "index", PInt 0);
            (str "message",
             PDict [(str "role", PStr (str "assistant"));
                    (str "content", PStr (str "Bot: hi"))])]
           [(str "role", PStr (str "assistant"));
            (str "content", PStr (str "Bot: hi"))]
           [PNone] (PStr (str "Bot: hi")));
    reflexivity.
Defined.

(** X15: In remote mode a 200 answer whose body is a JSON object without the
    key "choices", or with an empty list of choices, gives no result: a
    lookup error ([KeyError], [IndexError]) leaves [get_response]. *)
Theorem get_response_colab_no_choice (w : world) (messages : list Message)
  (response : http_response) (items : list (text * pyval)) :
  requests_post w (completions_url (getenv_MODEL_NGROK_URL w))
    (data messages) = Return response ->
  resp_status_code response = 200%Z ->
  resp_json response = Return (PDict items) ->
  dict_lookup items (str "choices") = None \/
  dict_lookup items (str "choices") = Some (PList []) ->
  exists e,
    get_response w (str "colab") messages = Raise e /\
    isinstance e "LookupError" = true /\
    (exn_class e = "KeyError"%string \/ exn_class e = "IndexError"%string).
Proof.
  intros Hpost Hs Hj H. unfold get_response.
  change (text_eqb (str "colab") (str "colab")) with true. cbv iota.
  unfold get_response_colab, obind. rewrite Hpost, Hs, Hj.
  cbn [negb Z.eqb Pos.eqb subscript_key].
  destruct H as [H|H]; rewrite H; cbn [subscript_0];
    eexists; (split; [reflexivity|]); split; auto.
Qed.

Lemma get_response_colab_no_choice_witness :
  exists e,
    get_response (serving no_choices (Return [])) (str "colab") hello
      = Raise e /\
    isinstance e "LookupError" = true /\
    (exn_class e = "KeyError"%string \/ exn_class e = "IndexError"%string).
Proof.
  apply (get_response_colab_no_choice _ _ no_choices
           [(str "choices", PList [])]);
    try reflexivity.
  right. reflexivity.
Defined.

(** X16: In local mode only the generation call is guarded: what loading the
    tokenizer or applying the chat template raises leaves [get_response] as
    it is, and so does what generation raises outside the [Exception]
    classes. *)
Theorem get_response_gcp_escapes (w : world) (messages : list Message)
  (e : exn) :
  AutoTokenizer_from_pretrained w model_path = Raise e \/
  (AutoTokenizer_from_pretrained w model_path = Return tt /\
   apply_chat_template w messages = Raise e) \/
  (AutoTokenizer_from_pretrained w model_path = Return tt /\
   exists text_prompt,
     apply_chat_template w messages = Return text_prompt /\
     obind (model_vllm_generate w text_prompt) first_text = Raise e /\
     isinstance e "Exception" = false) ->
  get_response w (str "gcp") messages = Raise e.
Proof.
  intros H. unfold get_response.
  change (text_eqb (str "gcp") (str "colab")) with false.
  change (text_eqb (str "gcp") (str "gcp")) with true. cbv iota.
  unfold get_response_gcp, obind in *.
  destruct H as [H|[[H1 H2]|[H1 [p [H2 [H3 H4]]]]]].
  - now rewrite H.
  - now rewrite H1, H2.
  - now rewrite H1, H2, H3, H4.
Qed.

Lemma get_response_gcp_escapes_witness :
  get_response (serving unavailable (Raise keyboard_interrupt)) (str "gcp")
    hello = Raise keyboard_interrupt.
Proof.
  apply get_response_gcp_escapes. right. right.
  split; [reflexivity|]. exists (str "prompt"). repeat split.
Defined.

(** X17: In local mode a generation that returns gives status code 200 and, as
    content, the text of the first completion of the first output. *)
Theorem get_response_gcp_first_text (w : world) (messages : list Message)
  (text_prompt t : text) (completions : list text)
  (outputs : list (list text)) :
  AutoTokenizer_from_pretrained w model_path = Return tt ->
  apply_chat_template w messages = Return text_prompt ->
  model_vllm_generate w text_prompt = Return ((t :: completions) :: outputs) ->
  get_response w (str "gcp") messages =
  Return (Some {| status_code := 200;
                  url := str "local_vllm";
                  headers := None;
                  content := Some (PStr t);
                  error := None |}).
Proof.
  intros H1 H2 H3. unfold get_response.
  change (text_eqb (str "gcp") (str "colab")) with false.
  change (text_eqb (str "gcp") (str "gcp")) with true. cbv iota.
  unfold get_response_gcp, obind. now rewrite H1, H2, H3.
Qed.

Lemma get_response_gcp_first_text_witness :
  get_response
    (serving unavailable (Return [[str "Bot: hi"; str "other"]; []]))
    (str "gcp") hello =
  Return (Some {| status_code := 200;
                  url := str "local_vllm";
                  headers := None;
                  content := Some (PStr (str "Bot: hi"));
                  error := None |}).
Proof.
  apply (get_response_gcp_first_text _ _ (str "prompt") (str "Bot: hi")
           [str "other"] [[]]); reflexivity.
Defined.

(** X18: In local mode a generation that returns no output, or a first output
    without a completion, is a failure like any other: status code 500 with
    the index error's text as error. *)
Theorem get_response_gcp_no_output (w : world) (messages : list Message)
  (text_prompt : text) (outputs : list (list text)) :
  AutoTokenizer_from_pretrained w model_path = Return tt ->
  apply_chat_template w messages = Return text_prompt ->
  model_vllm_generate w text_prompt = Return outputs ->
  hd [] outputs = [] ->
  get_response w (str "gcp") messages =
  Return (Some {| status_code := 500;
                  url := str "local_vllm";
                  headers := None;
                  content := None;
                  error := Some (PStr (str "list index out of range")) |}).
Proof.
  intros H1 H2 H3 H4. unfold get_response.
  change (text_eqb (str "gcp") (str "colab")) with false.
  change (text_eqb (str "gcp") (str "gcp")) with true. cbv iota.
  unfold get_response_gcp, obind. rewrite H1, H2, H3.
  destruct outputs as [|o rest]; [reflexivity|].
  cbn [hd] in H4. subst o. reflexivity.
Qed.

Lemma get_response_gcp_no_output_witness :
  get_response (serving unavailable (Return [])) (str "gcp") hello =
  Return (Some {| status_code := 500;
                  url := str "local_vllm";
                  headers := None;
                  content := None;
                  error := Some (PStr (str "list index out of range")) |}).
Proof.
  apply (get_response_gcp_no_output _ _ (str "prompt") []); reflexivity.
Defined.

End KoalphaMore.

(** * Further properties of [BotPostsService.generate_bot_post] *)

Module PostsMore.
Import BotPostsService.
Import CallKinds.
Import Samples.
Import PostSamples.
Import MorePostSamples.

Section Pipeline.
Variables Post Board BotUser Prompt Param : Type.
Variable self : collaborators Post Board BotUser Prompt Param.
Variable request : BotPostsRequest Post Board.

Local Notation "'opened'" := (BotPostsService.opened self request).

Lemma run_shape :
  run (generate_bot_post self request) =
  match langfuse_trace self (open_args self request) with
  | Return _ =>
      let (f, o) := try_except (guarded self request) (handler self) opened in
      (calls f, o)
  | Raise e => ([Call_langfuse_trace (open_args self request)], Raise e)
  end.
Proof. apply PostsFacts.run_generate_bot_post. Qed.

(** Case analysis over the answers of the collaborators. *)
Ltac oracle_case :=
  match goal with
  | |- context [trace_update self ?u] =>
      destruct (trace_update self u) as [[]|?] eqn:?
  | |- context [BotPostsPrompt_init self] =>
      destruct (BotPostsPrompt_init self) as [[]|?] eqn:?
  | |- context [get_bot_user_info self] =>
      destruct (get_bot_user_info self) as [?|?] eqn:?
  | |- context [json_to_messages self ?a ?b] =>
      destruct (json_to_messages self a b) as [[? ?]|?] eqn:?
  | |- context [model_get_response self ?a ?b ?c] =>
      destruct (model_get_response self a b c) as [[?|]|?] eqn:?
  | |- context [log_inference_to_langfuse self ?r] =>
      destruct (log_inference_to_langfuse self r) as [[]|?] eqn:?
  | |- context [isinstance ?e ?c] =>
      first [ is_var e; destruct (isinstance e c) eqn:?
            | let b := eval vm_compute in (isinstance e c) in
              change (isinstance e c) with b ]
  end.

Ltac all_cases :=
  unfold try_except, guarded, handler, check_post_count, get_content, bind,
    call, ret, raise, locals, assign_messages, assign_original_content,
    assign_content, opened, failure_update;
  repeat (cbn -[clean_response str isinstance Nat.ltb]; try oracle_case);
  cbn -[clean_response str isinstance Nat.ltb].

(** X19: No request makes more than one model call, two inference records or two
    trace updates, and every request opens exactly one trace. *)
Theorem call_budget :
  let log := fst (run (generate_bot_post self request)) in
  count is_trace_open log = 1 /\
  count is_model_call log <= 1 /\
  count is_inference_log log <= 2 /\
  count is_trace_update log <= 2.
Proof.
  rewrite run_shape.
  destruct (langfuse_trace self (open_args self request)) as [[]|e0];
    [|cbn; lia].
  destruct (length (posts request) <? 5) eqn:Hlen.
  - all_cases; rewrite Hlen; all_cases; unfold count; cbn; lia.
  - all_cases; rewrite Hlen; all_cases; unfold count; cbn; lia.
Qed.

(** X20: With fewer than five posts neither the prompt template nor the model
    is called, whatever the sink answers: every call of the request goes to
    the observability sink or the logger. *)
Theorem no_generation_below_five :
  (length (posts request) <? 5) = true ->
  forallb is_sink_call (fst (run (generate_bot_post self request))) = true.
Proof.
  intros Hlen. rewrite run_shape.
  destruct (langfuse_trace self (open_args self request)) as [[]|e0];
    [|reflexivity].
  all_cases; rewrite Hlen; all_cases; reflexivity.
Qed.

(** X21: With a sink that accepts the trace and its updates, the caller sees no
    exception below [Exception] other than an
    [InvalidQueryParameterError] and the service's own
    [InternalServerError]. *)
Theorem errors_are_mapped (log : list (event Post Board Prompt Param))
  (e : exn) :
  langfuse_trace self (open_args self request) = Return tt ->
  (forall u, trace_update self u = Return tt) ->
  run (generate_bot_post self request) = (log, Raise e) ->
  isinstance e "InvalidQueryParameterError" = true \/
  e = InternalServerError self \/
  isinstance e "Exception" = false.
Proof.
  intros Hopen Hupd. rewrite run_shape, Hopen. unfold try_except.
  destruct (guarded self request opened) as [f [a|e0]];
    [intros H; discriminate|].
  unfold handler.
  destruct (isinstance e0 "InvalidQueryParameterError") eqn:E1.
  - unfold raise. intros H. injection H as _ <-. now left.
  - destruct (isinstance e0 "Exception") eqn:E2.
    + unfold bind, call, locals, raise. rewrite Hupd.
      intros H. injection H as _ <-. right. now left.
    + unfold raise. intros H. injection H as _ <-. right. now right.
Qed.

(** X22: A request that returns a response had at least five posts, and the
    response carries the fixed message, the board of the request, the
    bot's user descriptor and the cleaned content of the model's answer
    (the empty text standing in for an absent content); that content is
    what the last call wrote into the trace as output. *)
Theorem response_is_sound (log : list (event Post Board Prompt Param))
  (resp : BotPostsResponse Board BotUser) :
  run (generate_bot_post self request) = (log, Return resp) ->
  5 <= length (posts request) /\
  message resp = response_message /\
  data_board_type (data resp) = board_type request /\
  get_bot_user_info self = Return (user (data resp)) /\
  (exists prompt messages r,
     json_to_messages self (posts request) (mode self) =
       Return (prompt, messages) /\
     model_get_response self messages prompt (str "generate_bot_post") =
       Return (Some r) /\
     content (data resp) =
       clean_response match result_content r with
                      | Some c => c
                      | None => []
                      end) /\
  exists earlier,
    log = earlier ++ [Call_trace_update (output_update (content (data resp)))].
Proof.
  rewrite run_shape.
  destruct (langfuse_trace self (open_args self request)) as [[]|e0];
    [|intros H; discriminate].
  destruct (length (posts request) <? 5) eqn:Hlen.
  - all_cases; rewrite Hlen; all_cases; intros H; discriminate.
  - apply Nat.ltb_ge in Hlen.
    all_cases;
      match goal with
      | |- context [length (posts request) <? 5] =>
          destruct (length (posts request) <? 5) eqn:Hlt;
          [apply Nat.ltb_lt in Hlt; lia|]
      end;
      all_cases; intros H; try discriminate.
    all: injection H as <- <-; cbn -[str clean_response].
    all: split; [exact Hlen|]; split; [reflexivity|]; split; [reflexivity|].
    all: split; [reflexivity|]; split.
    all: try (do 3 eexists; split; [reflexivity|];
              split; [eassumption | reflexivity]).
    all: eexists;
      change (?a :: ?b :: ?c :: ?d :: ?e :: ?f :: ?g :: [?h])
        with ([a; b; c; d; e; f; g] ++ [h]); reflexivity.
Qed.

(** X23: When the model call raises, or returns [None] (on which [.get] raises an
    [AttributeError]), and the sink accepts the update, the request ends in
    [InternalServerError]; the trace records the error with the messages
    that were sent and no content. *)
Theorem model_failure_is_internal_error (bot_user : BotUser)
  (prompt : Prompt) (messages : list Message) (e : exn) :
  (length (posts request) <? 5) = false ->
  langfuse_trace self (open_args self request) = Return tt ->
  BotPostsPrompt_init self = Return tt ->
  get_bot_user_info self = Return bot_user ->
  json_to_messages self (posts request) (mode self) =
    Return (prompt, messages) ->
  model_get_response self messages prompt (str "generate_bot_post") = Raise e
  \/ (model_get_response self messages prompt (str "generate_bot_post") =
        Return None /\
      e = AttributeError "'NoneType' object has no attribute 'get'") ->
  isinstance e "InvalidQueryParameterError" = false ->
  isinstance e "Exception" = true ->
  (forall u, trace_update self u = Return tt) ->
  run (generate_bot_post self request) =
  ([Call_langfuse_trace (open_args self request);
    Call_BotPostsPrompt;
    Call_get_bot_user_info;
    Call_json_to_messages (posts request) (mode self);
    Call_get_response messages prompt (str "generate_bot_post");
    Call_logger_error (str "Error generating bot post: " ++ exn_str e);
    Call_trace_update
      {| upd_status := Some (str "error");
         upd_error := Some (exn_str e);
         upd_metadata :=
           Some (MetaFailure (exn_class e) (Some messages) None None);
         upd_output := None |}],
   Raise (InternalServerError self)).
Proof.
  intros Hlen Hopen Hinit Huser Hjson Hmodel H1 H2 Hupd.
  rewrite run_shape, Hopen.
  unfold try_except, guarded, handler, check_post_count, get_content, bind,
    call, ret, raise, locals, assign_messages, assign_original_content,
    assign_content, opened, failure_update.
  rewrite Hlen, Hinit, Huser, Hjson. cbn [fst snd].
  destruct Hmodel as [Hm|[Hm ->]]; rewrite Hm;
    cbn -[str isinstance]; rewrite H1, H2, Hupd; reflexivity.
Qed.

(** X24: What a failure record in the trace says about the state of the request
    is consistent: a cleaned content is recorded only with the original
    content it was cleaned from, and an original content only with the
    messages that were sent. *)
Theorem failure_context_consistent (u : update_args)
  (error_type : string) (messages : option (list Message))
  (original cleaned : option text) :
  In (Call_trace_update u) (fst (run (generate_bot_post self request))) ->
  upd_metadata u = Some (MetaFailure error_type messages original cleaned) ->
  (original = None -> cleaned = None) /\
  (messages = None -> original = None) /\
  (forall o c, original = Some o -> cleaned = Some c -> c = clean_response o).
Proof.
  rewrite run_shape.
  destruct (langfuse_trace self (open_args self request)) as [[]|e0].
  - destruct (length (posts request) <? 5) eqn:Hlen;
      all_cases; rewrite Hlen; all_cases;
      intros Hin Hmeta;
      repeat match goal with
             | H : _ \/ _ |- _ => destruct H
             | H : False |- _ => destruct H
             | H : _ = Call_trace_update u |- _ => inversion H; clear H; subst u
             end;
      cbn in Hmeta; try discriminate;
      injection Hmeta as <- <- <- <-;
      (split; [congruence|]); (split; [congruence|]);
      intros o c Ho Hc; congruence.
  - cbn. intros [H|[]]. discriminate.
Qed.

End Pipeline.

Lemma no_generation_below_five_witness :
  forallb is_sink_call
    (fst (run (generate_bot_post (answering None) four_posts))) = true.
Proof.
  apply (no_generation_below_five _ _ _ _ _ (answering None) four_posts).
  reflexivity.
Defined.

Lemma errors_are_mapped_witness :
  isinstance (InternalServerError template_fails)
    "InvalidQueryParameterError" = true \/
  InternalServerError template_fails = InternalServerError template_fails \/
  isinstance (InternalServerError template_fails) "Exception" = false.
Proof.
  apply (errors_are_mapped _ _ _ _ _ template_fails five_posts
           (fst (run (generate_bot_post template_fails five_posts)))
           (InternalServerError template_fails));
    reflexivity.
Defined.

Lemma response_is_sound_witness :
  5 <= length (posts five_posts) /\
  exists earlier,
    fst (run (generate_bot_post (answering (Some (str "Bot: hi")))
                five_posts)) =
    earlier ++ [Call_trace_update (output_update (str "hi"))].
Proof.
  assert (E : run (generate_bot_post (answering (Some (str "Bot: hi")))
                     five_posts) =
              (fst (run (generate_bot_post (answering (Some (str "Bot: hi")))
                           five_posts)),
               Return {| message := response_message;
                         data := {| data_board_type := tt; user := tt;
                                    content := str "hi" |} |}))
    by (vm_compute; reflexivity).
  destruct (response_is_sound _ _ _ _ _ _ _ _ _ E)
    as (H1 & _ & _ & _ & _ & H6).
  split; [exact H1 | exact H6].
Defined.

Lemma model_failure_is_internal_error_witness :
  run (generate_bot_post model_silent five_posts) =
  ([Call_langfuse_trace (open_args model_silent five_posts);
    Call_BotPostsPrompt;
    Call_get_bot_user_info;
    Call_json_to_messages [tt; tt; tt; tt; tt] (str "local");
    Call_get_response hello tt (str "generate_bot_post");
    Call_logger_error
      (str "Error generating bot post: 'NoneType' object has no attribute 'get'");
    Call_trace_update
      {| upd_status := Some (str "error");
         upd_error := Some (str "'NoneType' object has no attribute 'get'");
         upd_metadata :=
           Some (MetaFailure "AttributeError" (Some hello) None None);
         upd_output := None |}],
   Raise (InternalServerError model_silent)).
Proof.
  apply (model_failure_is_internal_error _ _ _ _ _ model_silent five_posts
           tt tt hello
           (AttributeError "'NoneType' object has no attribute 'get'"));
    try reflexivity.
  right. split; reflexivity.
Defined.

Lemma failure_context_consistent_witness :
  (Some (str "Bot: hi") = None -> Some (str "hi") = None) /\
  (Some hello = None -> Some (str "Bot: hi") = None) /\
  (forall o c, Some (str "Bot: hi") = Some o -> Some (str "hi") = Some c ->
               c = clean_response o).
Proof.
  apply (failure_context_consistent _ _ _ _ _ output_refused five_posts
           {| upd_status := Some (str "error");
              upd_error := Some (str "sink unreachable");
              upd_metadata :=
                Some (MetaFailure "ConnectionError" (Some hello)
                        (Some (str "Bot: hi")) (Some (str "hi")));
              upd_output := None |}
           "ConnectionError").
  - vm_compute. do 9 right. left. reflexivity.
  - reflexivity.
Defined.

End PostsMore.
